(** * JSON-RPC over HTTP: the dispatcher and the per-method service

    A shallow embedding of package [jsonrpc] (transport/http/jsonrpc):
    [error.go] (the error taxonomy), [service.go] (the per-method pipeline
    [Service.ServeJSONRPC]) and the server file ([Server.ServeHTTP],
    [DefaultErrorEncoder]).

    Go values are modelled as follows.
    - [http.Header] is a [gmap string (list string)]; header maps are Go
      reference values, so they live in a store and are passed around as
      locations.
    - A value of interface type [error] is a record of what the package can
      observe of it: its [Error()] string and, when its dynamic type has them
      in its method set, the results of [ErrorCode()] and [Headers()].
    - Capabilities (hooks, decode, endpoint, encode, logger, error encoder)
      are state transformers on a world they may read and write.
    - Every capability call the code makes is appended to a trace together
      with the world in which it was made. *)

From Stdlib Require Import ZArith String Ascii List Lia.
From stdpp Require Import base option list strings gmap sets.

Local Open Scope string_scope.
Local Open Scope Z_scope.

(** ** net/textproto and net/http: header maps *)

Definition byte_in (lo hi : nat) (c : ascii) : bool :=
  (Nat.leb lo (nat_of_ascii c) && Nat.leb (nat_of_ascii c) hi)%bool.

Definition isLower (c : ascii) : bool := byte_in 97 122 c.
Definition isUpper (c : ascii) : bool := byte_in 65 90 c.
Definition isDigit (c : ascii) : bool := byte_in 48 57 c.

(** The token bytes of RFC 7230, as net/textproto's [validHeaderFieldByte]. *)
Definition validHeaderFieldByte (c : ascii) : bool :=
  (isLower c || isUpper c || isDigit c
   || existsb (Ascii.eqb c) (list_ascii_of_string "!#$%&'*+-.^_`|~"))%bool.

Fixpoint allValid (s : string) : bool :=
  match s with
  | EmptyString => true
  | String c s' => (validHeaderFieldByte c && allValid s')%bool
  end.

Definition toUpper (c : ascii) : ascii := ascii_of_nat (nat_of_ascii c - 32).
Definition toLower (c : ascii) : ascii := ascii_of_nat (nat_of_ascii c + 32).

(** First letter and every letter after a dash in upper case, the others in
    lower case. *)
Fixpoint canonLoop (upper : bool) (s : string) : string :=
  match s with
  | EmptyString => EmptyString
  | String c s' =>
      let c' := if (upper && isLower c)%bool then toUpper c
                else if (negb upper && isUpper c)%bool then toLower c
                else c in
      String c' (canonLoop (Ascii.eqb c' "-"%char) s')
  end.

(** [textproto.CanonicalMIMEHeaderKey]: a key holding a byte that is not a
    token byte is returned unchanged. *)
Definition CanonicalMIMEHeaderKey (s : string) : string :=
  if allValid s then canonLoop true s else s.

(** [http.Header], a [map[string][]string]. *)
Abbreviation HeaderMap := (gmap string (list string)).

(** [Header.Get]: the first value under the canonical form of the key. *)
Definition Header_Get (h : HeaderMap) (key : string) : string :=
  match h !! CanonicalMIMEHeaderKey key with
  | Some (v :: _) => v
  | _ => ""
  end.

(** [Header.Set]: replaces whatever is under the canonical form of the key
    by the single value. *)
Definition Header_Set (h : HeaderMap) (key value : string) : HeaderMap :=
  <[CanonicalMIMEHeaderKey key := [value]]> h.

(** Header maps are shared by reference. *)
Abbreviation loc := positive.

(** ** error.go *)

Record Error := mkError {
  Code : Z;
  Message : string;
  Data : option string
}.

Definition ParseError : Z := -32700.
Definition InvalidRequestError : Z := -32600.
Definition MethodNotFoundError : Z := -32601.
Definition InvalidParamsError : Z := -32602.
Definition InternalError : Z := -32603.

Definition errorMessage : list (Z * string) :=
  [ (ParseError, "An error occurred on the server while parsing the JSON text.");
    (InvalidRequestError, "The JSON sent is not a valid Request object.");
    (MethodNotFoundError, "The method does not exist / is not available.");
    (InvalidParamsError, "Invalid method parameter(s).");
    (InternalError, "Internal JSON-RPC error.") ].

Fixpoint assoc (code : Z) (tbl : list (Z * string)) : string :=
  match tbl with
  | [] => ""
  | (c, m) :: tbl' => if Z.eqb c code then m else assoc code tbl'
  end.

(** [ErrorMessage]: the empty string for an unknown code. *)
Definition ErrorMessage (code : Z) : string := assoc code errorMessage.

(** A value of interface type [error]. [err_ErrorCode] is [Some c] exactly
    when the assertion [err.(ErrorCoder)] succeeds (and [ErrorCode()] is
    [c]); [err_Headers] is [Some h] exactly when [err.(Headerer)] succeeds. *)
Record error := mkErr {
  err_Error : string;
  err_ErrorCode : option Z;
  err_Headers : option HeaderMap
}.

(** How a method is declared, and how a value is boxed into an interface. *)
Inductive receiver := ValueReceiver | PointerReceiver.
Inductive boxed := BoxedValue | BoxedPointer.

(** Go's method sets: the method set of [T] holds the methods declared with
    receiver [T]; that of [*T] holds those declared with [T] or [*T]. *)
Definition in_method_set (r : receiver) (b : boxed) : bool :=
  match r, b with
  | PointerReceiver, BoxedValue => false
  | _, _ => true
  end.

(** [invalidRequestError]: [Error()] is declared with a value receiver, so
    the struct itself is an [error]; [ErrorCode()] is declared with a
    pointer receiver. ([parseError], [invalidParamsError] and
    [internalError] have no [Error()] method and are no [error]s.) *)
Definition invalidRequestError_ErrorCode : receiver := PointerReceiver.

(** An [invalidRequestError] converted to [error]; [b] tells whether the
    struct itself or its address was converted. *)
Definition invalidRequestError (b : boxed) : error :=
  {| err_Error := ErrorMessage InvalidRequestError;
     err_ErrorCode :=
       if in_method_set invalidRequestError_ErrorCode b
       then Some InvalidRequestError else None;
     err_Headers := None |}.

(** [methodNotFoundError], a string type: both methods have value
    receivers. *)
Definition methodNotFoundError (e : string) : error :=
  {| err_Error := e;
     err_ErrorCode :=
       if in_method_set ValueReceiver BoxedValue
       then Some MethodNotFoundError else None;
     err_Headers := None |}.

(** ** The envelopes *)

Abbreviation RawMessage := string.

(** [interface{}] as [ServeJSONRPC] returns it: the nil interface, or a
    boxed [json.RawMessage]. *)
Abbreviation any := (option RawMessage).

Inductive RequestID := IDString (s : string) | IDNumber (n : Z).

(** Modelled from the spec: the declaration of the [Request] struct, which
    [ServeHTTP] decodes into; its fields are those of the request envelope
    of §3, [{ jsonrpc, method, params, id }]. *)
Record Request := mkRequest {
  req_JSONRPC : string;
  req_Method : string;
  req_Params : RawMessage;
  req_ID : option RequestID
}.

(** Modelled from the spec: the declaration of the [Response] struct;
    [RespHeaders], [JSONRPC], [Result] and [Error] are the fields the code
    names, [id] comes from the response envelope of §3. A field the code
    leaves out of a struct literal has its zero value: [None]. *)
Record Response := mkResponse {
  RespHeaders : option loc;
  resp_JSONRPC : string;
  resp_Result : any;
  resp_Error : option Error;
  resp_ID : option RequestID
}.

(** Modelled from the spec: the constant [Version]; §3 fixes the
    envelope's [jsonrpc] member to 2.0. *)
Definition Version : string := "2.0".

(** What the code takes as given: the value of the [ContentType] constant
    and encoding/json's decoding of a body into a [Request] ([None] when
    [Decode] returns an error). *)
Class Platform := {
  ContentType : string;
  jsonDecode : string -> option Request
}.

(** ** net/http: the response writer *)

Inductive Chunk :=
| Text (s : string)
| Envelope (r : Response).

(** [w_status] is [None] until [WriteHeader] is called. An [Envelope]
    chunk stands for the [Response] value handed to the JSON encoder. *)
Record ResponseWriter := mkWriter {
  w_header : HeaderMap;
  w_status : option Z;
  w_body : list Chunk
}.

Definition newResponseWriter : ResponseWriter :=
  {| w_header := ∅; w_status := None; w_body := [] |}.

Definition StatusOK : Z := 200.
Definition StatusMethodNotAllowed : Z := 405.
Definition MethodPost : string := "POST".

(** [w.Header().Set(k, v)] *)
Definition SetHeader (w : ResponseWriter) (k v : string) : ResponseWriter :=
  {| w_header := Header_Set (w_header w) k v;
     w_status := w_status w; w_body := w_body w |}.

(** [w.WriteHeader(code)] of net/http's writer, for a final status code
    (200 to 999; the package passes 200 and 405): only the first call
    counts. *)
Definition WriteHeader (w : ResponseWriter) (code : Z) : ResponseWriter :=
  {| w_header := w_header w;
     w_status := match w_status w with Some c => Some c | None => Some code end;
     w_body := w_body w |}.

(** A write: sends status 200 first when no status was written. *)
Definition WriteChunk (w : ResponseWriter) (c : Chunk) : ResponseWriter :=
  {| w_header := w_header w;
     w_status := match w_status w with Some c => Some c | None => Some StatusOK end;
     w_body := w_body w ++ [c] |}.

Definition LF : string := String (ascii_of_nat 10) EmptyString.

Section Intercepting.

(** The embedded [http.ResponseWriter] is an interface: any writer, with
    its own [WriteHeader]. *)
Context {W : Type} (inner_WriteHeader : W -> Z -> W).

(** [interceptingWriter]: the writer inside and the status code last
    passed to [WriteHeader]. *)
Record interceptingWriter := mkIntercepting {
  iw_ResponseWriter : W;
  iw_code : Z
}.

(** [interceptingWriter.WriteHeader], declared on the pointer: the code is
    recorded, then passed on to the writer inside. *)
Definition iw_WriteHeader (w : interceptingWriter) (code : Z) : interceptingWriter :=
  {| iw_ResponseWriter := inner_WriteHeader (iw_ResponseWriter w) code;
     iw_code := code |}.

End Intercepting.

Arguments interceptingWriter : clear implicits.
Arguments mkIntercepting {W} _ _.
Arguments iw_ResponseWriter {W} _.
Arguments iw_code {W} _.

(** ** Contexts, the world and the trace of calls *)

Section Model.

Context {U Value : Type} {P : Platform}.

(** [context.Context]: the header map [HeaderNewContext] stored, if any, and
    the values stored by [context.WithValue]. *)
Record Ctx := mkCtx {
  ctx_header : option loc;
  ctx_values : gmap string Value
}.

Definition WithValue (ctx : Ctx) (key : string) (v : Value) : Ctx :=
  {| ctx_header := ctx_header ctx; ctx_values := <[key := v]> (ctx_values ctx) |}.

Definition CtxValue (ctx : Ctx) (key : string) : option Value :=
  ctx_values ctx !! key.

(** Modelled from the spec: the helpers [HeaderNewContext] and
    [HeaderFromContext]; by §4.3 step 1 the context carries the inbound
    header set, or none. [HeaderFromContext] returns [(h, true)] as
    [Some h] and [(nil, false)] as [None]. *)
Definition HeaderNewContext (ctx : Ctx) (h : loc) : Ctx :=
  {| ctx_header := Some h; ctx_values := ctx_values ctx |}.

Definition HeaderFromContext (ctx : Ctx) : option loc := ctx_header ctx.

(** What capabilities can read and write: the header maps, by location, and
    a state of their own. *)
Record World := mkWorld {
  headers : gmap loc HeaderMap;
  env : U
}.

Definition Eff (A : Type) : Type := World -> A * World.

(** The arguments of [Log]. *)
Inductive keyval :=
| KVString (s : string)
| KVError (e : error).

Inductive HookKind := Before | After.

(** One call made by the code, with its arguments and what it returned.
    [EvHook k i] is the call of the hook at index [i] of [s.before] or
    [s.after]. *)
Inductive Event :=
| EvNewHeader (l : loc)
| EvHook (k : HookKind) (i : nat) (ctx : Ctx) (h : loc) (ret : Ctx)
| EvDecode (ctx : Ctx) (params : RawMessage) (ret : Value * option error)
| EvEndpoint (ctx : Ctx) (request : Value) (ret : Value * option error)
| EvEncode (ctx : Ctx) (response : Value) (ret : RawMessage * option error)
| EvLog (keyvals : list keyval)
| EvDecodeEnvelope (body : string) (ret : option Request)
| EvLookup (method : string) (found : bool)
| EvErrorEncoder (ctx : Ctx) (err : error).

(** The state a request is served in: the world, and the calls made so far,
    each with the world it was made in. *)
Record Machine := mkMachine {
  world : World;
  trace : list (World * Event)
}.

Definition M (A : Type) : Type := Machine -> A * Machine.

Definition ret {A} (a : A) : M A := fun m => (a, m).

Definition bind {A B} (c : M A) (k : A -> M B) : M B :=
  fun m => let (a, m') := c m in k a m'.

(** A step of the code itself, recorded. *)
Definition note (ev : Event) : M unit :=
  fun m => (tt, {| world := world m; trace := trace m ++ [(world m, ev)] |}).

(** A call of a capability, recorded with its result. *)
Definition call {A} (ev : A -> Event) (f : Eff A) : M A :=
  fun m =>
    let (a, w') := f (world m) in
    (a, {| world := w'; trace := trace m ++ [(world m, ev a)] |}).

(** A location no header map of the world is at, and the world with a new,
    empty map there. *)
Definition freshLoc (w : World) : loc := fresh (dom (headers w)).

Definition allocHeader (w : World) : World :=
  {| headers := <[freshLoc w := ∅]> (headers w); env := env w |}.

(** The state a request starts in: nothing called yet. *)
Definition initial (w : World) : Machine := {| world := w; trace := [] |}.

(** [http.Header{}] *)
Definition newHeader : M loc :=
  fun m =>
    (freshLoc (world m),
     {| world := allocHeader (world m);
        trace := trace m ++ [(world m, EvNewHeader (freshLoc (world m)))] |}).

End Model.

Arguments Ctx : clear implicits.
Arguments World : clear implicits.
Arguments Eff : clear implicits.
Arguments Event : clear implicits.
Arguments Machine : clear implicits.
Arguments M : clear implicits.

(** The arguments of [Log("err", err)]. *)
Abbreviation errArgs e := [KVString "err"; KVError e].

Notation "'let*' p ':=' c 'in' k" := (bind c (fun p => k))
  (at level 10, p pattern, c at level 200, k at level 200,
   format "'[v' 'let*'  p  ':='  c  'in' '/' k ']'").

(** ** service.go *)

Section Service.

Context {U Value : Type}.

Abbreviation ctx := (Ctx Value).
Abbreviation eff := (Eff U).
Abbreviation m := (M U Value).

(** [func(context.Context, http.Header) context.Context] *)
Definition RequestFunc : Type := ctx -> loc -> eff ctx.
Definition ServiceResponseFunc : Type := ctx -> loc -> eff ctx.

Definition DecodeRequestFunc : Type := ctx -> RawMessage -> eff (Value * option error).
Definition Endpoint : Type := ctx -> Value -> eff (Value * option error).
Definition EncodeResponseFunc : Type := ctx -> Value -> eff (RawMessage * option error).

(** [log.Logger]: [Log(keyvals...) error]. *)
Definition Logger : Type := list keyval -> eff (option error).

(** [log.NewNopLogger()] *)
Definition NopLogger : Logger := fun _ w => (None, w).

Record Service := mkService {
  s_e : Endpoint;
  s_dec : DecodeRequestFunc;
  s_enc : EncodeResponseFunc;
  s_before : list RequestFunc;
  s_after : list ServiceResponseFunc;
  s_logger : Logger
}.

Definition ServiceOption : Type := Service -> Service.

Definition NewService (e : Endpoint) (dec : DecodeRequestFunc)
    (enc : EncodeResponseFunc) (options : list ServiceOption) : Service :=
  foldl (fun s option => option s)
    {| s_e := e; s_dec := dec; s_enc := enc;
       s_before := []; s_after := []; s_logger := NopLogger |}
    options.

Definition ServiceBefore (before : list RequestFunc) : ServiceOption :=
  fun s => {| s_e := s_e s; s_dec := s_dec s; s_enc := s_enc s;
              s_before := s_before s ++ before;
              s_after := s_after s; s_logger := s_logger s |}.

Definition ServiceAfter (after : list ServiceResponseFunc) : ServiceOption :=
  fun s => {| s_e := s_e s; s_dec := s_dec s; s_enc := s_enc s;
              s_before := s_before s;
              s_after := s_after s ++ after; s_logger := s_logger s |}.

Definition ServiceErrorLogger (logger : Logger) : ServiceOption :=
  fun s => {| s_e := s_e s; s_dec := s_dec s; s_enc := s_enc s;
              s_before := s_before s;
              s_after := s_after s; s_logger := logger |}.

(** [for _, f := range fs { ctx = f(ctx, h) }], from index [i] on. *)
Fixpoint rangeHooks (k : HookKind) (i : nat) (fs : list RequestFunc)
    (c : ctx) (h : loc) : m ctx :=
  match fs with
  | [] => ret c
  | f :: fs' =>
      let* c' := call (EvHook k i c h) (f c h) in
      rangeHooks k (S i) fs' c' h
  end.

(** [s.logger.Log("err", err)]; what [Log] returns is dropped. *)
Definition logErr (s : Service) (err : error) : m unit :=
  let* _ := call (fun _ => EvLog (errArgs err)) (s_logger s (errArgs err)) in
  ret tt.

(** What a [Handler] returns: [(interface{}, http.Header, error)]. *)
Abbreviation reply := (any * option loc * option error)%type.

Definition ServeJSONRPC (s : Service) (c : ctx) (params : RawMessage) : m reply :=
  let* reqHeaders :=
    match HeaderFromContext c with
    | Some h => ret h
    | None => newHeader
    end in
  let* c := rangeHooks Before 0 (s_before s) c reqHeaders in
  let* (request, err) := call (EvDecode c params) (s_dec s c params) in
  match err with
  | Some err => let* _ := logErr s err in ret (None, None, Some err)
  | None =>
  let* (response, err) := call (EvEndpoint c request) (s_e s c request) in
  match err with
  | Some err => let* _ := logErr s err in ret (None, None, Some err)
  | None =>
  let* respHeaders := newHeader in
  let* c := rangeHooks After 0 (s_after s) c respHeaders in
  let* (paramsResp, err) := call (EvEncode c response) (s_enc s c response) in
  match err with
  | Some err => let* _ := logErr s err in ret (None, None, Some err)
  | None => ret (Some paramsResp, Some respHeaders, None)
  end end end.

End Service.

Arguments Service : clear implicits.
Arguments ServiceOption : clear implicits.
Arguments RequestFunc : clear implicits.
Arguments ServiceResponseFunc : clear implicits.
Arguments DecodeRequestFunc : clear implicits.
Arguments Endpoint : clear implicits.
Arguments EncodeResponseFunc : clear implicits.
Arguments Logger : clear implicits.

(** ** The server *)

Section Server.

Context {U Value : Type} {P : Platform}.

Abbreviation ctx := (Ctx Value).
Abbreviation eff := (Eff U).
Abbreviation m := (M U Value).
Abbreviation reply := (any * option loc * option error)%type.

(** [interface { ServeJSONRPC(ctx, params) (interface{}, http.Header, error) }] *)
Definition Handler : Type := ctx -> RawMessage -> m reply.

(** [*Service] as a [Handler]. *)
Definition asHandler (s : Service U Value) : Handler := ServeJSONRPC s.

(** [httptransport.ErrorEncoder]: [func(ctx, err, w)], writing to [w]. *)
Definition ErrorEncoder : Type := ctx -> error -> ResponseWriter -> eff ResponseWriter.

(** [*http.Request]: the verb, the header map, the body and [r.Context()]. *)
Record HTTPRequest := mkHTTPRequest {
  r_Method : string;
  r_Header : loc;
  r_Body : string;
  r_Context : ctx
}.

Record Server := mkServer {
  sm : gmap string Handler;
  errorEncoder : ErrorEncoder
}.

Definition ServerOption : Type := Server -> Server.

Definition ServerErrorEncoder (ee : ErrorEncoder) : ServerOption :=
  fun s => {| sm := sm s; errorEncoder := ee |}.

(** [for k := range h { w.Header().Set(k, h.Get(k)) }], over the keys in
    the order [keys]. *)
Definition copyHeaders (h : HeaderMap) (keys : list string)
    (w : ResponseWriter) : ResponseWriter :=
  foldl (fun w k => SetHeader w k (Header_Get h k)) w keys.

(** The writes of [DefaultErrorEncoder]. *)
Definition writeError (err : error) (w : ResponseWriter) : ResponseWriter :=
  let w := SetHeader w "Content-Type" ContentType in
  let w :=
    match err_Headers err with
    | Some h => copyHeaders h (elements (dom h)) w
    | None => w
    end in
  let e := {| Code := InternalError; Message := err_Error err; Data := None |} in
  let e :=
    match err_ErrorCode err with
    | Some code => {| Code := code; Message := Message e; Data := Data e |}
    | None => e
    end in
  let w := WriteHeader w StatusOK in
  WriteChunk w (Envelope {| RespHeaders := None; resp_JSONRPC := Version;
                       resp_Result := None; resp_Error := Some e;
                       resp_ID := None |}).

Definition DefaultErrorEncoder : ErrorEncoder :=
  fun _ err w world => (writeError err w, world).

Definition NewServer (sm : gmap string Handler) (options : list ServerOption) : Server :=
  foldl (fun s option => option s)
    {| sm := sm; errorEncoder := DefaultErrorEncoder |} options.

(** Modelled from the spec: [httptransport.EncodeJSONResponse], of package
    transport/http; by §4.5 and §6 it writes the success envelope, with a
    [Content-Type] and HTTP status 200. *)
Definition EncodeJSONResponse (_ : ctx) (w : ResponseWriter) (res : Response)
    : ResponseWriter :=
  let w := SetHeader w "Content-Type" ContentType in
  let w := WriteHeader w StatusOK in
  WriteChunk w (Envelope res).

Definition Sprintf_MethodNotFound (method : string) : string :=
  "Method " ++ method ++ " was not found.".

Definition ServeHTTP (s : Server) (w : ResponseWriter) (r : HTTPRequest)
    : m ResponseWriter :=
  if negb (String.eqb (r_Method r) MethodPost) then
    let w := SetHeader w "Content-Type" "text/plain; charset=utf-8" in
    let w := WriteHeader w StatusMethodNotAllowed in
    let w := WriteChunk w (Text ("405 must POST" ++ LF)) in
    ret w
  else
  let c := r_Context r in
  let c := HeaderNewContext c (r_Header r) in
  let req := jsonDecode (r_Body r) in
  let* _ := note (EvDecodeEnvelope (r_Body r) req) in
  match req with
  | None =>
      call (fun _ => EvErrorEncoder c (invalidRequestError BoxedValue))
           (errorEncoder s c (invalidRequestError BoxedValue) w)
  | Some req =>
  let srv : option Handler := sm s !! req_Method req in
  let* _ := note (EvLookup (req_Method req) (bool_decide (is_Some srv))) in
  match srv with
  | None =>
      let err := methodNotFoundError (Sprintf_MethodNotFound (req_Method req)) in
      call (fun _ => EvErrorEncoder c err) (errorEncoder s c err w)
  | Some srv =>
  let* (resp, respHeaders, err) := srv c (req_Params req) in
  match err with
  | Some err => call (fun _ => EvErrorEncoder c err) (errorEncoder s c err w)
  | None =>
  let res := {| RespHeaders := respHeaders; resp_JSONRPC := Version;
                resp_Result := None; resp_Error := None; resp_ID := None |} in
  let res := {| RespHeaders := RespHeaders res; resp_JSONRPC := resp_JSONRPC res;
                resp_Result := resp; resp_Error := resp_Error res;
                resp_ID := resp_ID res |} in
  ret (EncodeJSONResponse c w res)
  end end end.

End Server.

Arguments Handler : clear implicits.
Arguments ErrorEncoder : clear implicits.
Arguments HTTPRequest : clear implicits.
Arguments Server : clear implicits.
Arguments ServerOption : clear implicits.

(** ** Reading a trace *)

Section Traces.

Context {U Value : Type}.

Abbreviation ctx := (Ctx Value).
Abbreviation entry := (World U * Event Value)%type.

Definition is_hook (k : HookKind) (ev : Event Value) : bool :=
  match ev, k with
  | EvHook Before _ _ _ _, Before => true
  | EvHook After _ _ _ _, After => true
  | _, _ => false
  end.

Definition is_decode (ev : Event Value) : bool :=
  match ev with EvDecode _ _ _ => true | _ => false end.

Definition is_endpoint (ev : Event Value) : bool :=
  match ev with EvEndpoint _ _ _ => true | _ => false end.

Definition is_encode (ev : Event Value) : bool :=
  match ev with EvEncode _ _ _ => true | _ => false end.

Definition is_log (ev : Event Value) : bool :=
  match ev with EvLog _ => true | _ => false end.

Definition is_error_encoder (ev : Event Value) : bool :=
  match ev with EvErrorEncoder _ _ => true | _ => false end.

(** The calls of one kind, in the order they were made. *)
Fixpoint select (p : Event Value -> bool) (tr : list entry) : list entry :=
  match tr with
  | [] => []
  | x :: tr' => if p x.2 then x :: select p tr' else select p tr'
  end.

(** The loop over a list of hooks, as a relation: from context [c] and
    world [w], the hooks [fs], numbered from [i], make the calls [evs] and
    leave context [c'] and world [w']. *)
Inductive HookRun (k : HookKind) (h : loc) :
    nat -> list (RequestFunc U Value) -> ctx -> World U ->
    list entry -> ctx -> World U -> Prop :=
| HookRun_nil i c w : HookRun k h i [] c w [] c w
| HookRun_cons i f fs c w c' w' evs c'' w'' :
    f c h w = (c', w') ->
    HookRun k h (S i) fs c' w' evs c'' w'' ->
    HookRun k h i (f :: fs) c w ((w, EvHook k i c h c') :: evs) c'' w''.

(** The hook calls [calls] are those of the hooks [fs], in the order of
    [fs], starting from context [c0], each on the context the one before
    it returned. *)
Definition InOrder (k : HookKind) (fs : list (RequestFunc U Value)) (c0 : ctx)
    (calls : list entry) : Prop :=
  length calls = length fs /\
  (forall i f, fs !! i = Some f ->
     exists w c h, calls !! i = Some (w, EvHook k i c h (f c h w).1)) /\
  (forall w j c h c', calls !! 0%nat = Some (w, EvHook k j c h c') -> c = c0) /\
  (forall i w j c h c' w2 j2 c2 h2 c2',
     calls !! i = Some (w, EvHook k j c h c') ->
     calls !! S i = Some (w2, EvHook k j2 c2 h2 c2') ->
     c2 = c' /\
     forall key v, CtxValue c' key = Some v -> CtxValue c2 key = Some v).

(** Every call in [calls] is a hook call on the header map at [l]. *)
Definition AllOn (l : loc) (calls : list entry) : Prop :=
  forall x, x ∈ calls -> exists k i c c', x.2 = EvHook k i c l c'.

(** An option list, described: what each option registers. *)
Inductive OptionDesc :=
| OBefore (fs : list (RequestFunc U Value))
| OAfter (fs : list (ServiceResponseFunc U Value))
| OLogger (lg : Logger U).

Definition toOption (o : OptionDesc) : ServiceOption U Value :=
  match o with
  | OBefore fs => ServiceBefore fs
  | OAfter fs => ServiceAfter fs
  | OLogger lg => ServiceErrorLogger lg
  end.

Definition registeredBefore (o : OptionDesc) : list (RequestFunc U Value) :=
  match o with OBefore fs => fs | _ => [] end.

Definition registeredAfter (o : OptionDesc) : list (ServiceResponseFunc U Value) :=
  match o with OAfter fs => fs | _ => [] end.

Definition setsLogger (o : OptionDesc) : bool :=
  match o with OLogger _ => true | _ => false end.

Definition registeredLogger (o : OptionDesc) : option (Logger U) :=
  match o with OLogger lg => Some lg | _ => None end.

(** The first lines of [ServeJSONRPC]: the header map the before-hooks
    get is the one of the context, or a new one. *)
Inductive Prelude (c : ctx) (w : World U) : list entry -> loc -> World U -> Prop :=
| Prelude_some h :
    HeaderFromContext c = Some h -> Prelude c w [] h w
| Prelude_none :
    HeaderFromContext c = None ->
    Prelude c w [(w, EvNewHeader (freshLoc w))] (freshLoc w) (allocHeader w).

(** The four ways through [ServeJSONRPC], each with the reply, the world
    left and the calls made, in order. *)
Inductive Run (s : Service U Value) (c : ctx) (params : RawMessage) (w : World U) :
    any * option loc * option error -> World U -> list entry -> Prop :=
| Run_decode_fails pre h w0 befs c1 w1 v e w2 lr w3 :
    Prelude c w pre h w0 ->
    HookRun Before h 0 (s_before s) c w0 befs c1 w1 ->
    s_dec s c1 params w1 = ((v, Some e), w2) ->
    s_logger s (errArgs e) w2 = (lr, w3) ->
    Run s c params w (None, None, Some e) w3
      (pre ++ befs ++ [(w1, EvDecode c1 params (v, Some e)); (w2, EvLog (errArgs e))])
| Run_endpoint_fails pre h w0 befs c1 w1 request w2 v e w3 lr w4 :
    Prelude c w pre h w0 ->
    HookRun Before h 0 (s_before s) c w0 befs c1 w1 ->
    s_dec s c1 params w1 = ((request, None), w2) ->
    s_e s c1 request w2 = ((v, Some e), w3) ->
    s_logger s (errArgs e) w3 = (lr, w4) ->
    Run s c params w (None, None, Some e) w4
      (pre ++ befs ++ [(w1, EvDecode c1 params (request, None));
                       (w2, EvEndpoint c1 request (v, Some e));
                       (w3, EvLog (errArgs e))])
| Run_encode_fails pre h w0 befs c1 w1 request w2 response w3 afts c2 w4 v e w5 lr w6 :
    Prelude c w pre h w0 ->
    HookRun Before h 0 (s_before s) c w0 befs c1 w1 ->
    s_dec s c1 params w1 = ((request, None), w2) ->
    s_e s c1 request w2 = ((response, None), w3) ->
    HookRun After (freshLoc w3) 0 (s_after s) c1 (allocHeader w3) afts c2 w4 ->
    s_enc s c2 response w4 = ((v, Some e), w5) ->
    s_logger s (errArgs e) w5 = (lr, w6) ->
    Run s c params w (None, None, Some e) w6
      (pre ++ befs ++ [(w1, EvDecode c1 params (request, None));
                       (w2, EvEndpoint c1 request (response, None));
                       (w3, EvNewHeader (freshLoc w3))]
           ++ afts ++ [(w4, EvEncode c2 response (v, Some e));
                       (w5, EvLog (errArgs e))])
| Run_ok pre h w0 befs c1 w1 request w2 response w3 afts c2 w4 paramsResp w5 :
    Prelude c w pre h w0 ->
    HookRun Before h 0 (s_before s) c w0 befs c1 w1 ->
    s_dec s c1 params w1 = ((request, None), w2) ->
    s_e s c1 request w2 = ((response, None), w3) ->
    HookRun After (freshLoc w3) 0 (s_after s) c1 (allocHeader w3) afts c2 w4 ->
    s_enc s c2 response w4 = ((paramsResp, None), w5) ->
    Run s c params w (Some paramsResp, Some (freshLoc w3), None) w5
      (pre ++ befs ++ [(w1, EvDecode c1 params (request, None));
                       (w2, EvEndpoint c1 request (response, None));
                       (w3, EvNewHeader (freshLoc w3))]
           ++ afts ++ [(w4, EvEncode c2 response (paramsResp, None))]).

(** A computation that only appends to the trace, and whose result does not
    depend on the calls made before it. *)
Definition Framed {A} (x : M U Value A) : Prop :=
  forall mach,
    x mach = ((x (initial (world mach))).1,
              {| world := world (x (initial (world mach))).2;
                 trace := trace mach ++ trace (x (initial (world mach))).2 |}).

(** Exactly one of [result] and [error] is present in an envelope. *)
Definition exactlyOne (res : Response) : Prop :=
  (is_Some (resp_Result res) /\ resp_Error res = None) \/
  (resp_Result res = None /\ is_Some (resp_Error res)).

End Traces.

Arguments Framed U Value {A} x.

(** ** Sample services and requests *)

Definition DQ : string := String (ascii_of_nat 34) EmptyString.

Definition quoted (s : string) : string := DQ ++ s ++ DQ.

(** The body of the tests' [addBody], for any method name. *)
Definition callBody (method : string) : string :=
  "{" ++ quoted "jsonrpc" ++ ": " ++ quoted "2.0" ++ ", "
      ++ quoted "method" ++ ": " ++ quoted method ++ ", "
      ++ quoted "params" ++ ": [3, 2], " ++ quoted "id" ++ ": 1}".

Definition callRequest (method : string) : Request :=
  {| req_JSONRPC := "2.0"; req_Method := method; req_Params := "[3, 2]";
     req_ID := Some (IDNumber 1) |}.

(** A decoder for the two bodies used below; any other body is refused. *)
Definition sampleDecode (body : string) : option Request :=
  if String.eqb body (callBody "add") then Some (callRequest "add")
  else if String.eqb body (callBody "missing") then Some (callRequest "missing")
  else None.

Definition samplePlatform : Platform :=
  {| ContentType := "application/json; charset=utf-8";
     jsonDecode := sampleDecode |}.

(** Domain values are strings; the state of the capabilities counts the
    calls of the logger. *)
Definition emptyCtx : Ctx string := {| ctx_header := None; ctx_values := ∅ |}.

Definition nopDecoder : DecodeRequestFunc nat string := fun _ _ w => (("", None), w).
Definition nopEncoder : EncodeResponseFunc nat string := fun _ _ w => (("[]", None), w).
Definition endpointNop : Endpoint nat string := fun _ _ w => (("", None), w).

(** [errors.New("oof")] *)
Definition oof : error :=
  {| err_Error := "oof"; err_ErrorCode := None; err_Headers := None |}.

Definition badDecoder : DecodeRequestFunc nat string := fun _ _ w => (("", Some oof), w).
Definition badEndpoint : Endpoint nat string := fun _ _ w => (("", Some oof), w).
Definition badEncoder : EncodeResponseFunc nat string := fun _ _ w => (("", Some oof), w).

Definition mockLogger : Logger nat :=
  fun _ w => (None, {| headers := headers w; env := S (env w) |}).

Definition setOne : RequestFunc nat string :=
  fun c _ w => (WithValue c "one" "1", w).

Definition setTwo : RequestFunc nat string :=
  fun c _ w => (WithValue c "two" "2", w).

(** A hook that sets a header on the map it is given. *)
Definition stamp : ServiceResponseFunc nat string :=
  fun c h w =>
    (c, {| headers := alter (fun hm => Header_Set hm "X-Stamp" "1") h (headers w);
           env := env w |}).

Definition sampleWorld : World nat :=
  {| headers := {[ 1%positive := {[ "Content-Type" := ["application/json"] ]} ]};
     env := 0%nat |}.

Definition postRequest (body : string) : HTTPRequest string :=
  {| r_Method := "POST"; r_Header := 1%positive; r_Body := body;
     r_Context := emptyCtx |}.

Definition getRequest : HTTPRequest string :=
  {| r_Method := "GET"; r_Header := 1%positive; r_Body := callBody "add";
     r_Context := emptyCtx |}.

Definition addService : Service nat string :=
  NewService endpointNop nopDecoder nopEncoder
    [ServiceBefore [setOne]; ServiceBefore [setTwo]; ServiceAfter [stamp]].


Definition badDecodeService : Service nat string :=
  NewService endpointNop badDecoder nopEncoder
    [ServiceAfter [stamp]; ServiceErrorLogger mockLogger].

Definition addHandlers : gmap string (Handler nat string) :=
  {[ "add" := asHandler addService ]}.


(** The tests' [expectErrorCode]: the codes of the error envelopes written. *)
Definition errorCodes (w : ResponseWriter) : list Z :=
  omap (fun c => match c with
                 | Envelope res => Code <$> resp_Error res
                 | Text _ => None
                 end) (w_body w).

(** The second hook of [TestMultipleServerBefore]: it notes, in the state
    of the capabilities, whether the value of the first hook is there. *)
Definition checkOne : RequestFunc nat string :=
  fun c _ w =>
    (c, {| headers := headers w;
           env := match CtxValue c "one" with
                  | Some _ => (env w + 10)%nat
                  | None => env w
                  end |}).

(** The error encoder of [TestServerErrorEncoder]. *)
Definition teapotEncoder : ErrorEncoder nat string :=
  fun _ err w world =>
    (WriteHeader w (if String.eqb (err_Error err) "teapot" then 418 else 500),
     world).

Definition teapot : error :=
  {| err_Error := "teapot"; err_ErrorCode := None; err_Headers := None |}.

Definition serve (s : Server nat string) : ResponseWriter * Machine nat string :=
  ServeHTTP (P:=samplePlatform) s newResponseWriter (postRequest (callBody "add"))
    (initial sampleWorld).

(** A body with another version and no id, and a decoder that takes it
    too. *)
Definition oldBody : string :=
  "{" ++ quoted "jsonrpc" ++ ": " ++ quoted "1.0" ++ ", "
      ++ quoted "method" ++ ": " ++ quoted "add" ++ ", "
      ++ quoted "params" ++ ": [3, 2]}".

Definition oldRequest : Request :=
  {| req_JSONRPC := "1.0"; req_Method := "add"; req_Params := "[3, 2]";
     req_ID := None |}.

Definition lenientPlatform : Platform :=
  {| ContentType := "application/json; charset=utf-8";
     jsonDecode := fun body =>
       if String.eqb body oldBody then Some oldRequest else sampleDecode body |}.

(** An error whose header map has two keys of one canonical form. *)
Definition mixedHeaders : HeaderMap :=
  {[ "x-id" := ["lower"]; "X-Id" := ["canonical"; "second"] ]}.

Definition mixedError : error :=
  {| err_Error := "mixed"; err_ErrorCode := None; err_Headers := Some mixedHeaders |}.

(** An error whose only header key is not in canonical form. *)
Definition lowerHeaders : HeaderMap := {[ "x-id" := ["7"] ]}.

Definition lowerError : error :=
  {| err_Error := "lower"; err_ErrorCode := None; err_Headers := Some lowerHeaders |}.

(** An after-hook that notes whether the header map it is given holds the
    stamp of [stamp]. *)
Definition checkStamp : ServiceResponseFunc nat string :=
  fun c h w =>
    (c, {| headers := headers w;
           env := match headers w !! h with
                  | Some hm => if String.eqb (Header_Get hm "X-Stamp") "1"
                               then (env w + 10)%nat else env w
                  | None => env w
                  end |}).

(** A service whose after-hooks are [stamp], then [checkStamp]. *)
Definition stampService : Service nat string :=
  NewService endpointNop nopDecoder nopEncoder [ServiceAfter [stamp; checkStamp]].

(** The server of [TestServerErrorEncoder]. *)
Definition teapotServer : Server nat string :=
  NewServer (P:=samplePlatform)
    {[ "add" := asHandler (NewService (fun _ _ w => (("", Some teapot), w))
                             nopDecoder nopEncoder []) ]}
    [ServerErrorEncoder teapotEncoder].

(** An error with a code, and a header of two values. *)
Definition cookieHeaders : HeaderMap := {[ "Set-Cookie" := ["a=1"; "b=2"] ]}.

Definition cookieError : error :=
  {| err_Error := "teapot"; err_ErrorCode := Some 418;
     err_Headers := Some cookieHeaders |}.

(** * Properties *)

Section Loops.

Context {U Value : Type}.

Implicit Types (tr evs : list (World U * Event Value)) (p : Event Value -> bool).

Lemma select_app p tr evs :
  select p (tr ++ evs) = (select p tr ++ select p evs)%list.
Proof.
  induction tr as [|x tr IH]; simpl; [reflexivity|].
  destruct (p x.2); simpl; congruence.
Qed.

Lemma machine_eta (mach : Machine U Value) :
  {| world := world mach; trace := trace mach ++ [] |} = mach.
Proof. destruct mach; simpl. by rewrite app_nil_r. Qed.

(** The loop makes exactly the calls [HookRun] describes. *)
Lemma rangeHooks_run (fs : list (RequestFunc U Value)) k i c h mach :
  exists c' w' evs,
    rangeHooks k i fs c h mach = (c', {| world := w'; trace := trace mach ++ evs |}) /\
    HookRun k h i fs c (world mach) evs c' w'.
Proof.
  revert i c mach. induction fs as [|f fs IH]; intros i c mach; simpl.
  - exists c, (world mach), []. split; [|constructor].
    unfold ret. by rewrite machine_eta.
  - unfold bind, call. destruct (f c h (world mach)) as [c1 w1] eqn:Hf.
    destruct (IH (S i) c1 {| world := w1;
                trace := trace mach ++ [(world mach, EvHook k i c h c1)] |})
      as (c' & w' & evs & Heq & Hrun).
    exists c', w', ((world mach, EvHook k i c h c1) :: evs). split.
    + rewrite Heq. simpl. by rewrite <- app_assoc.
    + econstructor; eauto.
Qed.

Lemma HookRun_select k h i (fs : list (RequestFunc U Value)) c w evs c' w' :
  HookRun k h i fs c w evs c' w' -> select (is_hook k) evs = evs.
Proof.
  induction 1; simpl; [reflexivity|].
  destruct k; simpl; congruence.
Qed.

Lemma HookRun_select_none p k h i (fs : list (RequestFunc U Value)) c w evs c' w' :
  (forall j c1 h1 c2, p (EvHook k j c1 h1 c2) = false) ->
  HookRun k h i fs c w evs c' w' -> select p evs = [].
Proof.
  intros Hp. induction 1; simpl; [reflexivity|]. by rewrite Hp.
Qed.

Lemma HookRun_length k h i (fs : list (RequestFunc U Value)) c w evs c' w' :
  HookRun k h i fs c w evs c' w' -> length evs = length fs.
Proof. induction 1; simpl; congruence. Qed.

Lemma HookRun_AllOn k h i (fs : list (RequestFunc U Value)) c w evs c' w' :
  HookRun k h i fs c w evs c' w' -> AllOn h evs.
Proof.
  induction 1; intros x Hx.
  - by apply elem_of_nil in Hx.
  - apply elem_of_cons in Hx as [->|Hx]; [simpl; eauto | by apply IHHookRun].
Qed.

Lemma HookRun_order k h i (fs : list (RequestFunc U Value)) c w evs c' w' :
  HookRun k h i fs c w evs c' w' ->
  (forall j f, fs !! j = Some f ->
     exists w1 c1, evs !! j = Some (w1, EvHook k (i + j) c1 h (f c1 h w1).1)) /\
  (forall w1 j c1 h1 c1', evs !! 0%nat = Some (w1, EvHook k j c1 h1 c1') -> c1 = c) /\
  (forall n w1 j c1 h1 c1' w2 j2 c2 h2 c2',
     evs !! n = Some (w1, EvHook k j c1 h1 c1') ->
     evs !! S n = Some (w2, EvHook k j2 c2 h2 c2') -> c2 = c1').
Proof.
  induction 1 as [|i f fs c w c1 w1 evs c2 w2 Hf Hrun (IHa & IHb & IHc)].
  - repeat split; intros; simplify_eq/=.
  - repeat split.
    + intros [|j] g Hg; simplify_eq/=.
      * exists w, c. rewrite Nat.add_0_r, Hf. reflexivity.
      * destruct (IHa j g Hg) as (wj & cj & Hj). exists wj, cj.
        rewrite Hj. do 4 f_equal. lia.
    + intros; simplify_eq/=. reflexivity.
    + intros [|n] wa ja ca ha ca' wb jb cb hb cb' H1 H2; simpl in H1, H2.
      * injection H1 as <- <- <- <- <-. eapply IHb; eauto.
      * eapply IHc; eauto.
Qed.

Lemma HookRun_InOrder k h (fs : list (RequestFunc U Value)) c w evs c' w' :
  HookRun k h 0 fs c w evs c' w' -> InOrder k fs c evs.
Proof.
  intros Hrun. destruct (HookRun_order _ _ _ _ _ _ _ _ _ Hrun) as (Ha & Hb & Hc).
  split; [by eapply HookRun_length|]. split; [|split].
  - intros i f Hf. destruct (Ha i f Hf) as (w1 & c1 & H1). eauto.
  - exact Hb.
  - intros. assert (c2 = c'0) as -> by (eapply Hc; eauto). auto.
Qed.

Lemma HookRun_last k h i (fs : list (RequestFunc U Value)) c w evs c' w' :
  HookRun k h i fs c w evs c' w' ->
  match last evs with
  | Some x => exists w1 j c1, x = (w1, EvHook k j c1 h c')
  | None => c' = c
  end.
Proof.
  induction 1 as [|i f fs c w c1 w1 evs c2 w2 Hf Hrun IH]; [reflexivity|].
  destruct evs as [|y evs].
  - simpl in *. subst. eauto.
  - change (last ((w, EvHook k i c h c1) :: y :: evs)) with (last (y :: evs)).
    destruct (last (y :: evs)) eqn:E; [exact IH|].
    by apply last_None in E.
Qed.

(** Whatever is called right after the loop, or first in it, is called in
    the world the loop started in. *)
Lemma HookRun_next k h i (fs : list (RequestFunc U Value)) c w evs c' w' :
  HookRun k h i fs c w evs c' w' ->
  forall y, exists x tl, (evs ++ [(w', y)])%list = x :: tl /\ x.1 = w.
Proof. destruct 1; intros y; simpl; eauto. Qed.

End Loops.

Section Pipeline.

Context {U Value : Type}.

Implicit Types (s : Service U Value) (c : Ctx Value) (mach : Machine U Value).

Lemma prelude_run c mach :
  exists pre h w0,
    match HeaderFromContext c with Some h => ret h | None => newHeader end mach
      = (h, {| world := w0; trace := trace mach ++ pre |}) /\
    Prelude c (world mach) pre h w0.
Proof.
  destruct (HeaderFromContext c) as [h|] eqn:Hc.
  - exists [], h, (world mach). split; [|by constructor].
    unfold ret. by rewrite machine_eta.
  - eexists _, _, _. split; [reflexivity|]. by constructor.
Qed.

(** [ServeJSONRPC] goes one of the four ways of [Run], and appends the
    calls of that way to the trace. *)
Lemma ServeJSONRPC_Run s c params mach :
  exists rep w' evs,
    ServeJSONRPC s c params mach
      = (rep, {| world := w'; trace := trace mach ++ evs |}) /\
    Run s c params (world mach) rep w' evs.
Proof.
  unfold ServeJSONRPC. unfold bind at 1.
  destruct (prelude_run c mach) as (pre & h & w0 & -> & Hpre).
  unfold bind at 1.
  destruct (rangeHooks_run (s_before s) Before 0 c h
              {| world := w0; trace := trace mach ++ pre |})
    as (c1 & w1 & befs & -> & Hbef). simpl in Hbef.
  unfold bind at 1, call at 1. simpl.
  destruct (s_dec s c1 params w1) as [[request [e|]] w2] eqn:Hdec.
  { unfold logErr, bind, call, ret. simpl.
    destruct (s_logger s (errArgs e) w2) as [lr w3] eqn:Hlog.
    eexists _, _, _. split; [|eapply Run_decode_fails; eauto].
    by rewrite <- !app_assoc. }
  unfold bind at 1, call at 1. simpl.
  destruct (s_e s c1 request w2) as [[response [e|]] w3] eqn:He.
  { unfold logErr, bind, call, ret. simpl.
    destruct (s_logger s (errArgs e) w3) as [lr w4] eqn:Hlog.
    eexists _, _, _. split; [|eapply Run_endpoint_fails; eauto].
    by rewrite <- !app_assoc. }
  unfold bind at 1, newHeader at 1. simpl.
  unfold bind at 1.
  match goal with |- context [rangeHooks After 0 (s_after s) c1 ?l ?m0] =>
    destruct (rangeHooks_run (s_after s) After 0 c1 l m0)
      as (c2 & w4 & afts & -> & Haft) end.
  simpl in Haft.
  unfold bind at 1, call at 1. simpl.
  destruct (s_enc s c2 response w4) as [[paramsResp [e|]] w5] eqn:Henc.
  { unfold logErr, bind, call, ret. simpl.
    destruct (s_logger s (errArgs e) w5) as [lr w6] eqn:Hlog.
    eexists _, _, _. split; [|eapply Run_encode_fails; eauto].
    by rewrite <- !app_assoc. }
  unfold ret.
  eexists _, _, _. split; [|eapply Run_ok; eauto].
  by rewrite <- !app_assoc.
Qed.

Lemma ServeJSONRPC_initial s c params w :
  exists rep w' evs,
    ServeJSONRPC s c params (initial w) = (rep, {| world := w'; trace := evs |}) /\
    Run s c params w rep w' evs.
Proof. apply (ServeJSONRPC_Run s c params (initial w)). Qed.

Lemma Prelude_select (p : Event Value -> bool) c (w : World U) pre h w0 :
  (forall l, p (EvNewHeader l) = false) ->
  Prelude c w pre h w0 -> select p pre = [].
Proof. intros Hp [h' _|_]; simpl; [reflexivity|]. by rewrite Hp. Qed.

Lemma elem_of_select (p : Event Value -> bool) (tr : list (World U * Event Value)) x :
  x ∈ tr -> p x.2 = true -> x ∈ select p tr.
Proof.
  induction tr as [|y tr IH]; intros Hx Hp; [by apply elem_of_nil in Hx|].
  simpl. apply elem_of_cons in Hx as [->|Hx].
  - rewrite Hp. by left.
  - destruct (p y.2); [right|]; auto.
Qed.

End Pipeline.

(** Computes [select p] on the trace of a way of [Run]. *)
Ltac select_run Hpre Hbef :=
  rewrite ?select_app;
  rewrite ?(Prelude_select _ _ _ _ _ _ (fun _ => eq_refl) Hpre);
  rewrite ?(HookRun_select _ _ _ _ _ _ _ _ _ Hbef);
  rewrite ?(HookRun_select_none _ _ _ _ _ _ _ _ _ _ (fun _ _ _ _ => eq_refl) Hbef);
  simpl.

Ltac select_run2 Hpre Hbef Haft :=
  select_run Hpre Hbef;
  rewrite ?(HookRun_select _ _ _ _ _ _ _ _ _ Haft);
  rewrite ?(HookRun_select_none _ _ _ _ _ _ _ _ _ _ (fun _ _ _ _ => eq_refl) Haft);
  simpl.

(** The four ways of [Run], with the names the proofs below use. *)
Ltac run_cases Hrun :=
  destruct Hrun as
    [ pre h w0 befs ca wa va ea wb lr wc Hpre Hbef Hdec Hlog
    | pre h w0 befs ca wa rq wb va ea wc lr wd Hpre Hbef
    | pre h w0 befs ca wa rq wb rs wc afts cb wd va ea we lr wf
        Hpre Hbef Hdec He Haft
    | pre h w0 befs ca wa rq wb rs wc afts cb wd raw we
        Hpre Hbef Hdec He Haft ].

(** A call of one kind in the trace is among the selected calls. *)
Ltac pick H p :=
  apply (elem_of_select p) in H; [|reflexivity].

Section PipelineClaims.

Context {U Value : Type}.

Implicit Types (s : Service U Value) (c : Ctx Value) (w : World U).

Lemma options_fold s0 (opts : list (@OptionDesc U Value)) :
  let s := foldl (fun s option => option s) s0 (toOption <$> opts) in
  s_before s = (s_before s0 ++ concat (registeredBefore <$> opts))%list /\
  s_after s = (s_after s0 ++ concat (registeredAfter <$> opts))%list /\
  (forallb (fun o => negb (setsLogger o)) opts = true -> s_logger s = s_logger s0).
Proof.
  revert s0. induction opts as [|o opts IH]; intros s0; csimpl.
  - by rewrite !app_nil_r.
  - destruct (IH (toOption o s0)) as (Hb & Ha & Hl). cbv zeta in *.
    rewrite Hb, Ha. destruct o; simpl; rewrite <- ?app_assoc; repeat split; auto.
    intros [=].
Qed.

Lemma NewService_fields (e : Endpoint U Value) dec enc (opts : list OptionDesc) :
  let s := NewService e dec enc (toOption <$> opts) in
  s_before s = concat (registeredBefore <$> opts) /\
  s_after s = concat (registeredAfter <$> opts) /\
  (forallb (fun o => negb (setsLogger o)) opts = true -> s_logger s = NopLogger).
Proof. apply options_fold. Qed.

(** C5. A failing decode step stops the pipeline before the endpoint, the
    after-hooks and the encode step; a failing endpoint stops it before
    the after-hooks and the encode step. In each failure case, the encode
    step included, [ServeJSONRPC] returns the error of the failing stage as
    it is, and the logger is called once, with that error. When no stage
    fails the logger is not called. A service built without
    [ServiceErrorLogger] has the no-op logger, which leaves the world as it
    is. *)
Theorem ServeJSONRPC_short_circuit s c params w :
  let out := ServeJSONRPC s c params (initial w) in
  let err := out.1.2 in
  let tr := trace out.2 in
  (forall w1 c1 p v e, (w1, EvDecode c1 p (v, Some e)) ∈ tr ->
     select is_endpoint tr = [] /\ select (is_hook After) tr = [] /\
     select is_encode tr = [] /\ err = Some e /\
     exists w2, select is_log tr = [(w2, EvLog (errArgs e))]) /\
  (forall w1 c1 rq v e, (w1, EvEndpoint c1 rq (v, Some e)) ∈ tr ->
     select (is_hook After) tr = [] /\ select is_encode tr = [] /\
     err = Some e /\
     exists w2, select is_log tr = [(w2, EvLog (errArgs e))]) /\
  (forall w1 c1 rs v e, (w1, EvEncode c1 rs (v, Some e)) ∈ tr ->
     err = Some e /\
     exists w2, select is_log tr = [(w2, EvLog (errArgs e))]) /\
  (err = None -> select is_log tr = []) /\
  (forall (e : Endpoint U Value) dec enc (opts : list OptionDesc) kv w0,
     forallb (fun o => negb (setsLogger o)) opts = true ->
     s_logger (NewService e dec enc (toOption <$> opts)) kv w0 = (None, w0)).
Proof.
  destruct (ServeJSONRPC_initial s c params w) as (rep & w' & evs & -> & Hrun).
  cbn [fst snd trace].
  split; [|split; [|split; [|split]]].
  - intros w1 c1 p v e Hin. pick Hin (@is_decode Value).
    run_cases Hrun;
      revert Hin; first [select_run2 Hpre Hbef Haft | select_run Hpre Hbef];
      intros Hin; apply list_elem_of_singleton in Hin; simplify_eq.
    repeat split; eauto.
  - intros w1 c1 rq' v e Hin. pick Hin (@is_endpoint Value).
    run_cases Hrun;
      revert Hin; first [select_run2 Hpre Hbef Haft | select_run Hpre Hbef];
      intros Hin;
      first [by apply elem_of_nil in Hin
            | apply list_elem_of_singleton in Hin; simplify_eq].
    repeat split; eauto.
  - intros w1 c1 rs' v e Hin. pick Hin (@is_encode Value).
    run_cases Hrun;
      revert Hin; first [select_run2 Hpre Hbef Haft | select_run Hpre Hbef];
      intros Hin;
      first [by apply elem_of_nil in Hin
            | apply list_elem_of_singleton in Hin; simplify_eq].
    repeat split; eauto.
  - run_cases Hrun;
      intros [=]; select_run2 Hpre Hbef Haft; reflexivity.
  - intros e dec enc opts kv w0 Hopts.
    destruct (NewService_fields e dec enc opts) as (_ & _ & ->); auto.
Qed.

(** C6. The before-hooks of a service are those of its [ServiceBefore]
    options, in the order of the options and, within one option, of its
    arguments; the same for the after-hooks. On every request all
    before-hooks are called, in that order; the first gets the context of
    the request and each next one the context the one before it returned,
    so that a value stored under a key by one hook is there for the next.
    The decode step gets the context the last before-hook returned. The
    after-hooks, when the pipeline reaches them, are all called, in their
    order, threaded in the same way from that context. *)
Theorem hooks_run_in_registration_order s c params w :
  let out := ServeJSONRPC s c params (initial w) in
  let tr := trace out.2 in
  (forall (e : Endpoint U Value) dec enc (opts : list OptionDesc),
     s_before (NewService e dec enc (toOption <$> opts))
       = concat (registeredBefore <$> opts) /\
     s_after (NewService e dec enc (toOption <$> opts))
       = concat (registeredAfter <$> opts)) /\
  InOrder Before (s_before s) c (select (is_hook Before) tr) /\
  exists c1 w1 r,
    select is_decode tr = [(w1, EvDecode c1 params r)] /\
    match last (select (is_hook Before) tr) with
    | Some x => exists w0 j c0 h, x = (w0, EvHook Before j c0 h c1)
    | None => c1 = c
    end /\
    (select (is_hook After) tr = [] \/
     InOrder After (s_after s) c1 (select (is_hook After) tr)) /\
    (out.1.2 = None ->
     InOrder After (s_after s) c1 (select (is_hook After) tr)).
Proof.
  destruct (ServeJSONRPC_initial s c params w) as (rep & w' & evs & -> & Hrun).
  cbn [fst snd trace].
  split; [intros e dec enc opts;
          destruct (NewService_fields e dec enc opts) as (? & ? & _); auto|].
  run_cases Hrun;
    first [select_run2 Hpre Hbef Haft | select_run Hpre Hbef];
    rewrite ?app_nil_r;
    (split; [by eapply HookRun_InOrder|]);
    eexists _, _, _; (split; [reflexivity|]);
    (split; [pose proof (HookRun_last _ _ _ _ _ _ _ _ _ Hbef) as Hl;
             destruct (last befs); [destruct Hl as (? & ? & ? & ->); eauto|done]|]).
  - split; [by left|]. intros [=].
  - split; [by left|]. intros [=].
  - split; [right; by eapply HookRun_InOrder|]. intros [=].
  - split; [right|intros _]; by eapply HookRun_InOrder.
Qed.

(** C8. The before-hooks are all called on one header map: the one the
    context carries or, when it carries none, a map made for this request,
    at a location not in use and empty when the next call is made. When
    every stage succeeds, [ServeJSONRPC] returns the raw params the encode
    step returned, with no error, and the outbound header map: one made for
    this request after the endpoint returned, at a location not in use,
    empty when the next call is made, and the one map all after-hooks were
    called on. *)
Theorem ServeJSONRPC_success s c params w :
  let out := ServeJSONRPC s c params (initial w) in
  let tr := trace out.2 in
  (exists l, AllOn l (select (is_hook Before) tr) /\
     length (select (is_hook Before) tr) = length (s_before s) /\
     match HeaderFromContext c with
     | Some h => l = h
     | None =>
         (l ∉ dom (headers w)) /\
         exists x tl, tr = (w, EvNewHeader l) :: x :: tl /\
                      headers x.1 !! l = Some ∅
     end) /\
  (out.1.2 = None ->
   exists raw l w3 wE cE rs,
     out.1 = (Some raw, Some l, None) /\
     last tr = Some (wE, EvEncode cE rs (raw, None)) /\
     AllOn l (select (is_hook After) tr) /\
     length (select (is_hook After) tr) = length (s_after s) /\
     (l ∉ dom (headers w3)) /\
     exists tr1 x tr2, tr = (tr1 ++ (w3, EvNewHeader l) :: x :: tr2)%list /\
                       headers x.1 !! l = Some ∅).
Proof.
  destruct (ServeJSONRPC_initial s c params w) as (rep & w' & evs & -> & Hrun).
  cbn [fst snd trace].
  assert (Hfresh : forall w0 : World U, freshLoc w0 ∉ dom (headers w0))
    by (intros; apply is_fresh).
  assert (Hempty : forall w0 : World U,
            headers (allocHeader w0) !! freshLoc w0 = Some ∅)
    by (intros; apply lookup_insert_eq).
  split.
  - assert (exists pre h w0 befs ca wa y tl,
              Prelude c w pre h w0 /\
              HookRun Before h 0 (s_before s) c w0 befs ca wa /\
              select (is_hook Before) evs = befs /\
              evs = (pre ++ (befs ++ [(wa, y)]) ++ tl)%list)
      as (pre & h & w0 & befs & ca & wa & y & tl & Hpre & Hbef & Hsel & Hevs).
    { run_cases Hrun;
      eexists pre, h, w0, befs, ca, wa, _, _;
      (split; [exact Hpre|]); (split; [exact Hbef|]);
      (split; [first [select_run2 Hpre Hbef Haft | select_run Hpre Hbef];
               by rewrite ?app_nil_r|]);
      rewrite <- !app_assoc; simpl; reflexivity. }
    exists h. rewrite Hsel.
    split; [by eapply HookRun_AllOn|]. split; [by eapply HookRun_length|].
    destruct Hpre as [h Hc|Hc]; rewrite Hc; [reflexivity|].
    split; [apply Hfresh|].
    destruct (HookRun_next _ _ _ _ _ _ _ _ _ Hbef y) as (x & tl' & Heq & Hx).
    exists x, (tl' ++ tl)%list. rewrite Hevs, Heq. split; [reflexivity|].
    rewrite Hx. apply Hempty.
  - run_cases Hrun;
      intros [=].
    exists raw, (freshLoc wc), wc, wd, cb, rs.
    split; [reflexivity|].
    split; [by rewrite !app_assoc, last_snoc|].
    select_run2 Hpre Hbef Haft. rewrite app_nil_r.
    split; [by eapply HookRun_AllOn|]. split; [by eapply HookRun_length|].
    split; [apply Hfresh|].
    destruct (HookRun_next _ _ _ _ _ _ _ _ _ Haft (EvEncode cb rs (raw, None)))
      as (x & tl' & Heq & Hx).
    exists (pre ++ befs ++ [(wa, EvDecode ca params (rq, None));
                            (wb, EvEndpoint ca rq (rs, None))])%list, x, tl'.
    rewrite <- Heq, Hx. split; [|apply Hempty].
    rewrite <- !app_assoc. reflexivity.
Qed.

End PipelineClaims.

Section Frames.

Context {U Value : Type}.

Lemma Framed_ret {A} (a : A) : Framed U Value (ret a).
Proof. intros mach. unfold ret. simpl. by rewrite machine_eta. Qed.

Lemma Framed_bind {A B} (x : M U Value A) (k : A -> M U Value B) :
  Framed U Value x -> (forall a, Framed U Value (k a)) -> Framed U Value (bind x k).
Proof.
  intros Hx Hk mach. unfold bind. rewrite (Hx mach).
  destruct (x (initial (world mach))) as [a m1]. simpl.
  rewrite (Hk a {| world := world m1; trace := trace mach ++ trace m1 |}).
  rewrite (Hk a m1). simpl.
  destruct m1 as [w1 t1]. simpl.
  destruct (k a (initial w1)) as [b m2]. simpl. by rewrite app_assoc.
Qed.

Lemma Framed_call {A} (ev : A -> Event Value) (f : Eff U A) : Framed U Value (call ev f).
Proof. intros mach. unfold call. simpl. by destruct (f (world mach)). Qed.

Lemma Framed_note (ev : Event Value) : Framed U Value (note (U:=U) ev).
Proof. intros mach. reflexivity. Qed.

Lemma Framed_newHeader : Framed U Value (newHeader (U:=U) (Value:=Value)).
Proof. intros mach. reflexivity. Qed.

Lemma Framed_rangeHooks k i (fs : list (RequestFunc U Value)) c h :
  Framed U Value (rangeHooks k i fs c h).
Proof.
  revert i c. induction fs as [|f fs IH]; intros i c; simpl.
  - apply Framed_ret.
  - apply Framed_bind; [apply Framed_call|]. intros c'. apply IH.
Qed.

Lemma Framed_logErr (s : Service U Value) e : Framed U Value (logErr s e).
Proof. apply Framed_bind; [apply Framed_call|]. intros. apply Framed_ret. Qed.

Lemma Framed_ServeJSONRPC (s : Service U Value) c params :
  Framed U Value (ServeJSONRPC s c params).
Proof.
  unfold ServeJSONRPC.
  apply Framed_bind.
  { destruct (HeaderFromContext c); [apply Framed_ret | apply Framed_newHeader]. }
  intros h. apply Framed_bind; [apply Framed_rangeHooks|].
  intros c1. apply Framed_bind; [apply Framed_call|].
  intros [request [e|]].
  { apply Framed_bind; [apply Framed_logErr|]. intros. apply Framed_ret. }
  apply Framed_bind; [apply Framed_call|].
  intros [response [e|]].
  { apply Framed_bind; [apply Framed_logErr|]. intros. apply Framed_ret. }
  apply Framed_bind; [apply Framed_newHeader|].
  intros l. apply Framed_bind; [apply Framed_rangeHooks|].
  intros c2. apply Framed_bind; [apply Framed_call|].
  intros [paramsResp [e|]].
  { apply Framed_bind; [apply Framed_logErr|]. intros. apply Framed_ret. }
  apply Framed_ret.
Qed.

End Frames.

Section Writer.

Context {P : Platform}.

Implicit Types (w : ResponseWriter) (h : HeaderMap).

Lemma copyHeaders_status_body h keys w :
  w_status (copyHeaders h keys w) = w_status w /\
  w_body (copyHeaders h keys w) = w_body w.
Proof.
  revert w. induction keys as [|k keys IH]; intros w; simpl; [done|].
  destruct (IH (SetHeader w k (Header_Get h k))) as [-> ->]. done.
Qed.

(** What [Get] returns hangs on the canonical form of the key only. *)
Lemma Header_Get_canonical h k k' :
  CanonicalMIMEHeaderKey k = CanonicalMIMEHeaderKey k' ->
  Header_Get h k = Header_Get h k'.
Proof. unfold Header_Get. by intros ->. Qed.

Lemma copyHeaders_keeps h keys w k :
  w_header w !! CanonicalMIMEHeaderKey k = Some [Header_Get h k] ->
  w_header (copyHeaders h keys w) !! CanonicalMIMEHeaderKey k
    = Some [Header_Get h k].
Proof.
  revert w. induction keys as [|k' keys IH]; intros w Hw; simpl; [done|].
  apply IH. simpl. unfold Header_Set.
  destruct (decide (CanonicalMIMEHeaderKey k' = CanonicalMIMEHeaderKey k)) as [E|E].
  - rewrite E, lookup_insert_eq. by rewrite (Header_Get_canonical h k' k).
  - by rewrite lookup_insert_ne.
Qed.

Lemma copyHeaders_sets h keys w k :
  k ∈ keys ->
  w_header (copyHeaders h keys w) !! CanonicalMIMEHeaderKey k
    = Some [Header_Get h k].
Proof.
  revert w. induction keys as [|k' keys IH]; intros w Hk;
    [by apply elem_of_nil in Hk|].
  apply elem_of_cons in Hk as [->|Hk]; simpl; [|by apply IH].
  apply copyHeaders_keeps. simpl. unfold Header_Set. apply lookup_insert_eq.
Qed.

Lemma copyHeaders_others h keys w key :
  (forall k, k ∈ keys -> CanonicalMIMEHeaderKey k <> key) ->
  w_header (copyHeaders h keys w) !! key = w_header w !! key.
Proof.
  revert w. induction keys as [|k' keys IH]; intros w Hk; simpl; [done|].
  rewrite IH by (intros; apply Hk; by right).
  simpl. unfold Header_Set. apply lookup_insert_ne. apply Hk. by left.
Qed.

(** The order in which the keys of the map are ranged over does not
    matter. *)
Lemma copyHeaders_any_order h keys keys' w :
  keys ≡ₚ keys' -> copyHeaders h keys w = copyHeaders h keys' w.
Proof.
  intros Hperm.
  destruct (copyHeaders_status_body h keys w) as [Hs Hb].
  destruct (copyHeaders_status_body h keys' w) as [Hs' Hb'].
  assert (w_header (copyHeaders h keys w) = w_header (copyHeaders h keys' w)) as Hh.
  { apply map_eq. intros key.
    destruct (decide (Exists (fun k => CanonicalMIMEHeaderKey k = key) keys))
      as [Hyes|Hno].
    - apply Exists_exists in Hyes as (k & Hk & <-).
      rewrite copyHeaders_sets by done.
      rewrite copyHeaders_sets by (by rewrite <- Hperm). done.
    - rewrite !copyHeaders_others; [done| |].
      + intros k Hk E. apply Hno, Exists_exists. exists k. by rewrite Hperm.
      + intros k Hk E. apply Hno, Exists_exists. eauto. }
  destruct (copyHeaders h keys w), (copyHeaders h keys' w); simpl in *; congruence.
Qed.

End Writer.

Section EncoderClaims.

Context {U Value : Type} {P : Platform}.

Lemma writeError_fields err w :
  w_status (writeError err w)
    = Some (match w_status w with Some code => code | None => StatusOK end) /\
  w_body (writeError err w)
    = (w_body w ++ [Envelope
        {| RespHeaders := None; resp_JSONRPC := Version; resp_Result := None;
           resp_Error := Some
             {| Code := match err_ErrorCode err with
                        | Some code => code
                        | None => InternalError
                        end;
                Message := err_Error err; Data := None |};
           resp_ID := None |}])%list.
Proof.
  unfold writeError. simpl.
  assert (forall w0 : ResponseWriter,
            w_status match err_Headers err with
                     | Some h => copyHeaders h (elements (dom h)) w0
                     | None => w0 end = w_status w0 /\
            w_body match err_Headers err with
                   | Some h => copyHeaders h (elements (dom h)) w0
                   | None => w0 end = w_body w0) as H.
  { intros w0. destruct (err_Headers err); [apply copyHeaders_status_body|done]. }
  destruct (H (SetHeader w "Content-Type" ContentType)) as [-> ->]. simpl.
  split.
  - by destruct (w_status w).
  - by destruct (err_ErrorCode err).
Qed.

(** C3, on the code. For every error value and every writer nothing was
    written to, the default error encoder writes HTTP status 200 and one
    envelope whose error object has the code the error reports through
    [ErrorCoder], or -32603 when the error is no [ErrorCoder], and the
    [Error()] string as its message; it leaves the world as it is. Of the
    header map the error exposes through [Headerer], the response gets,
    under the canonical form of each key, the one value [Get] returns for
    the key: a header of two or more values reaches the response with its
    first value only. *)
Theorem DefaultErrorEncoder_writes (c : Ctx Value) err w (world : World U) :
  w_status w = None ->
  let out := DefaultErrorEncoder c err w world in
  out.2 = world /\
  w_status out.1 = Some 200 /\
  (exists e, w_body out.1
     = (w_body w ++ [Envelope
         {| RespHeaders := None; resp_JSONRPC := Version; resp_Result := None;
            resp_Error := Some e; resp_ID := None |}])%list /\
     Message e = err_Error err /\
     (err_ErrorCode err = None -> Code e = -32603) /\
     (forall code, err_ErrorCode err = Some code -> Code e = code)) /\
  (forall h k, err_Headers err = Some h -> k ∈ dom h ->
     w_header out.1 !! CanonicalMIMEHeaderKey k = Some [Header_Get h k]) /\
  (forall h k v v' vs, err_Headers err = Some h ->
     h !! k = Some (v :: v' :: vs) -> CanonicalMIMEHeaderKey k = k ->
     w_header out.1 !! k = Some [v] /\ w_header out.1 !! k <> h !! k).
Proof.
  intros Hw. cbn [DefaultErrorEncoder fst snd].
  destruct (writeError_fields err w) as [Hs Hb].
  assert (Hcopy : forall h k, err_Headers err = Some h -> k ∈ dom h ->
            w_header (writeError err w) !! CanonicalMIMEHeaderKey k
              = Some [Header_Get h k]).
  { intros h k Hh Hk. unfold writeError. rewrite Hh. simpl.
    apply copyHeaders_sets. by apply elem_of_elements. }
  split; [reflexivity|]. split; [by rewrite Hs, Hw|].
  split; [|split].
  - eexists. split; [exact Hb|]. simpl. split; [reflexivity|].
    split; [by intros ->|by intros code ->].
  - exact Hcopy.
  - intros h k v v' vs Hh Hk Hcanon.
    assert (k ∈ dom h) as Hdom by (apply elem_of_dom; eauto).
    pose proof (Hcopy h k Hh Hdom) as H. rewrite Hcanon in H.
    assert (Header_Get h k = v) as Hget
      by (unfold Header_Get; by rewrite Hcanon, Hk).
    rewrite Hget in H. rewrite H, Hk. split; [reflexivity|discriminate].
Qed.

End EncoderClaims.

(** At an error that exposes a header of two values, only the first one
    reaches the response: the headers an error exposes are not all
    copied. *)
Lemma DefaultErrorEncoder_copies_first_value_only :
  err_Headers cookieError = Some cookieHeaders /\
  cookieHeaders !! "Set-Cookie" = Some ["a=1"; "b=2"] /\
  w_header (DefaultErrorEncoder (P:=samplePlatform) emptyCtx cookieError
              newResponseWriter sampleWorld).1 !! "Set-Cookie"
    = Some ["a=1"] /\
  ~ (forall (c : Ctx string) err w (world : World nat) h k vs,
       w_status w = None -> err_Headers err = Some h -> h !! k = Some vs ->
       w_header (DefaultErrorEncoder (P:=samplePlatform) c err w world).1 !! k
         = Some vs).
Proof.
  split; [reflexivity|]. split; [vm_compute; reflexivity|].
  assert (w_header (DefaultErrorEncoder (P:=samplePlatform) emptyCtx cookieError
              newResponseWriter sampleWorld).1 !! "Set-Cookie"
          = Some ["a=1"]) as E by (vm_compute; reflexivity).
  split; [exact E|].
  intros H.
  specialize (H emptyCtx cookieError newResponseWriter sampleWorld
                cookieHeaders "Set-Cookie" ["a=1"; "b=2"]
                eq_refl eq_refl ltac:(vm_compute; reflexivity)).
  rewrite E in H. discriminate.
Qed.

Lemma DefaultErrorEncoder_writes_witness :
  w_status newResponseWriter = None /\
  err_Headers cookieError = Some cookieHeaders /\
  cookieHeaders !! "Set-Cookie" = Some ["a=1"; "b=2"] /\
  CanonicalMIMEHeaderKey "Set-Cookie" = "Set-Cookie" /\
  w_status (DefaultErrorEncoder (P:=samplePlatform) emptyCtx cookieError
              newResponseWriter sampleWorld).1 = Some 200 /\
  w_header (DefaultErrorEncoder (P:=samplePlatform) emptyCtx cookieError
              newResponseWriter sampleWorld).1 !! "Set-Cookie" = Some ["a=1"].
Proof.
  assert (H1 : cookieHeaders !! "Set-Cookie" = Some ["a=1"; "b=2"])
    by (vm_compute; reflexivity).
  assert (H2 : CanonicalMIMEHeaderKey "Set-Cookie" = "Set-Cookie")
    by (vm_compute; reflexivity).
  split; [reflexivity|]. split; [reflexivity|]. split; [exact H1|].
  split; [exact H2|].
  destruct (DefaultErrorEncoder_writes (P:=samplePlatform) emptyCtx cookieError
              newResponseWriter sampleWorld eq_refl)
    as (_ & Hstatus & _ & _ & Hfirst).
  split; [exact Hstatus|].
  exact (proj1 (Hfirst cookieHeaders "Set-Cookie" "a=1" "b=2" [] eq_refl H1 H2)).
Defined.

Section ServerClaims.

Context {U Value : Type} {P : Platform}.

Implicit Types (s : Server U Value) (svc : Service U Value)
  (w : ResponseWriter) (r : HTTPRequest Value) (sg : World U).

Lemma canonical_Content_Type : CanonicalMIMEHeaderKey "Content-Type" = "Content-Type".
Proof. reflexivity. Qed.

(** The reply of [ServeJSONRPC] has params and headers exactly when it has
    no error. *)
Lemma reply_shape svc c params sg :
  let rep := (ServeJSONRPC svc c params (initial sg)).1 in
  match rep.2 with
  | Some e => rep = (None, None, Some e)
  | None => exists raw l, rep = (Some raw, Some l, None)
  end.
Proof.
  destruct (ServeJSONRPC_initial svc c params sg) as (rep & w' & evs & -> & Hrun).
  destruct Hrun; simpl; eauto.
Qed.


(** What a POST whose method is served by a [Service] writes. *)
Lemma ServeHTTP_dispatch s w r req svc sg :
  r_Method r = MethodPost ->
  jsonDecode (r_Body r) = Some req ->
  sm s !! req_Method req = Some (asHandler svc) ->
  let c := HeaderNewContext (r_Context r) (r_Header r) in
  let run := ServeJSONRPC svc c (req_Params req) (initial sg) in
  (ServeHTTP s w r (initial sg)).1 =
    match run.1 with
    | (resp, respHeaders, Some e) => (errorEncoder s c e w (world run.2)).1
    | (resp, respHeaders, None) =>
        EncodeJSONResponse c w
          {| RespHeaders := respHeaders; resp_JSONRPC := Version;
             resp_Result := resp; resp_Error := None; resp_ID := None |}
    end.
Proof.
  intros Hpost Hreq Hsrv. unfold ServeHTTP. cbv zeta.
  rewrite Hpost, String.eqb_refl, Hreq. cbn [negb]. cbv iota.
  rewrite Hsrv. unfold bind, note. cbn [initial world trace]. unfold asHandler.
  rewrite Framed_ServeJSONRPC. cbn [world].
  destruct (ServeJSONRPC svc _ (req_Params req) (initial sg))
    as [[[resp respHeaders] [e|]] m1]; cbn [fst snd]; [|reflexivity].
  unfold call. cbn [world]. by destruct (errorEncoder s _ e w (world m1)).
Qed.

(** What a POST writes when the error encoder is called at once. *)
Lemma ServeHTTP_not_dispatched s w r mach :
  r_Method r = MethodPost ->
  let c := HeaderNewContext (r_Context r) (r_Header r) in
  match jsonDecode (r_Body r) with
  | None =>
      (ServeHTTP s w r mach).1
        = (errorEncoder s c (invalidRequestError BoxedValue) w (world mach)).1
  | Some req =>
      sm s !! req_Method req = None ->
      (ServeHTTP s w r mach).1
        = (errorEncoder s c
             (methodNotFoundError (Sprintf_MethodNotFound (req_Method req))) w
             (world mach)).1
  end.
Proof.
  intros Hpost. unfold ServeHTTP. cbv zeta.
  rewrite Hpost, String.eqb_refl. cbn [negb]. cbv iota.
  destruct (jsonDecode (r_Body r)) as [req|].
  - intros ->. unfold bind, note, call. cbn [world].
    by destruct (errorEncoder s _ _ w (world mach)).
  - unfold bind, note, call. cbn [world].
    by destruct (errorEncoder s _ _ w (world mach)).
Qed.

(** C1, on the code. A POST whose body is not decoded gets, from the server
    with the default error encoder, HTTP status 200 and an envelope whose
    error has code -32603 and the message of [InvalidRequestError]:
    [ServeHTTP] passes an [invalidRequestError] struct, whose method set
    lacks [ErrorCode], declared on the pointer; passed by address, the
    error would report -32600. *)
Theorem malformed_body_gets_InternalError (handlers : gmap string (Handler U Value))
    w r mach :
  r_Method r = MethodPost ->
  jsonDecode (r_Body r) = None ->
  w_status w = None ->
  let out := ServeHTTP (NewServer handlers []) w r mach in
  w_status out.1 = Some 200 /\
  w_body out.1
    = (w_body w ++ [Envelope
        {| RespHeaders := None; resp_JSONRPC := Version; resp_Result := None;
           resp_Error := Some
             {| Code := -32603;
                Message := "The JSON sent is not a valid Request object.";
                Data := None |};
           resp_ID := None |}])%list /\
  err_ErrorCode (invalidRequestError BoxedValue) = None /\
  err_ErrorCode (invalidRequestError BoxedPointer) = Some (-32600).
Proof.
  intros Hpost Hbody Hw. cbv zeta.
  pose proof (ServeHTTP_not_dispatched (NewServer handlers []) w r mach Hpost) as H.
  cbv zeta in H. rewrite Hbody in H. rewrite H.
  cbn [NewServer foldl errorEncoder DefaultErrorEncoder fst].
  destruct (writeError_fields (invalidRequestError BoxedValue) w) as [-> ->].
  rewrite Hw. repeat split.
Qed.

(** C4. A POST whose body decodes to a request naming a method that is not
    in the service map gets, from the server with the default error
    encoder, HTTP status 200 and an envelope whose error has code -32601
    and a message that holds the method name. *)
Theorem unknown_method_gets_MethodNotFound (handlers : gmap string (Handler U Value))
    w r req mach :
  r_Method r = MethodPost ->
  jsonDecode (r_Body r) = Some req ->
  handlers !! req_Method req = None ->
  w_status w = None ->
  let out := ServeHTTP (NewServer handlers []) w r mach in
  w_status out.1 = Some 200 /\
  exists msg,
    w_body out.1
      = (w_body w ++ [Envelope
          {| RespHeaders := None; resp_JSONRPC := Version; resp_Result := None;
             resp_Error := Some {| Code := -32601; Message := msg; Data := None |};
             resp_ID := None |}])%list /\
    exists before after, msg = before ++ req_Method req ++ after.
Proof.
  intros Hpost Hbody Hmiss Hw. cbv zeta.
  pose proof (ServeHTTP_not_dispatched (NewServer handlers []) w r mach Hpost) as H.
  cbv zeta in H. rewrite Hbody in H. rewrite (H Hmiss).
  cbn [NewServer foldl errorEncoder DefaultErrorEncoder fst].
  destruct (writeError_fields
              (methodNotFoundError (Sprintf_MethodNotFound (req_Method req))) w)
    as [-> ->].
  rewrite Hw. split; [reflexivity|].
  eexists. split; [reflexivity|].
  exists "Method ", " was not found.". reflexivity.
Qed.

(** C7. A request whose verb is not POST gets HTTP status 405 and a
    plain-text body. Nothing is called and the world is left as it is: the
    body is not decoded, the service map is not looked up, no envelope is
    written; the response is the same whatever the server and the rest of
    the request are. *)
Theorem non_POST_gets_405 s w r mach :
  r_Method r <> MethodPost ->
  w_status w = None ->
  let out := ServeHTTP s w r mach in
  out.2 = mach /\
  w_status out.1 = Some 405 /\
  w_header out.1 !! "Content-Type" = Some ["text/plain; charset=utf-8"] /\
  w_body out.1 = (w_body w ++ [Text ("405 must POST" ++ LF)])%list /\
  (forall res, Envelope res ∈ w_body out.1 -> Envelope res ∈ w_body w) /\
  (forall s' r', r_Method r' = r_Method r -> ServeHTTP s' w r' mach = out).
Proof.
  intros Hverb Hw. cbv zeta.
  assert (forall s' r', r_Method r' = r_Method r ->
            ServeHTTP s' w r' mach =
            (WriteChunk (WriteHeader (SetHeader w "Content-Type"
                                        "text/plain; charset=utf-8")
                                     StatusMethodNotAllowed)
                        (Text ("405 must POST" ++ LF)), mach)) as Hrun.
  { intros s' r' Hr'. unfold ServeHTTP. rewrite Hr'.
    apply String.eqb_neq in Hverb. rewrite Hverb. reflexivity. }
  rewrite (Hrun s r eq_refl). cbn [fst snd].
  split; [reflexivity|]. split; [simpl; by rewrite Hw|].
  split; [simpl; unfold Header_Set; rewrite canonical_Content_Type;
          apply lookup_insert_eq|].
  split; [reflexivity|]. split; [|intros; by apply Hrun].
  intros res Hin. simpl in Hin. apply elem_of_app in Hin as [Hin|Hin]; [done|].
  apply list_elem_of_singleton in Hin. discriminate.
Qed.

(** C2. With the default error encoder and a service map of [Service]
    handlers, every POST gets one envelope, with exactly one of [result]
    and [error]. When the method is served and every stage of its pipeline
    succeeds, [result] is there and [error] is not; when a stage fails,
    [error] is there and [result] is not. *)
Theorem envelope_has_result_or_error (handlers : gmap string (Handler U Value))
    w r sg :
  r_Method r = MethodPost ->
  (forall name h, handlers !! name = Some h -> exists svc, h = asHandler svc) ->
  let out := ServeHTTP (NewServer handlers []) w r (initial sg) in
  exists res,
    w_body out.1 = (w_body w ++ [Envelope res])%list /\
    exactlyOne res /\
    forall req svc,
      jsonDecode (r_Body r) = Some req ->
      handlers !! req_Method req = Some (asHandler svc) ->
      match (ServeJSONRPC svc (HeaderNewContext (r_Context r) (r_Header r))
               (req_Params req) (initial sg)).1.2 with
      | None => is_Some (resp_Result res) /\ resp_Error res = None
      | Some e => resp_Result res = None /\ is_Some (resp_Error res)
      end.
Proof.
  intros Hpost Hsvc. cbv zeta.
  pose proof (ServeHTTP_not_dispatched (NewServer handlers []) w r (initial sg) Hpost)
    as Hearly. cbv zeta in Hearly.
  destruct (jsonDecode (r_Body r)) as [req|] eqn:Hreq.
  2: { rewrite Hearly. cbn [NewServer foldl errorEncoder DefaultErrorEncoder fst].
       destruct (writeError_fields (invalidRequestError BoxedValue) w) as [_ ->].
       eexists. split; [reflexivity|]. split; [right; simpl; eauto|].
       intros ? ? [=]. }
  destruct (handlers !! req_Method req) as [h|] eqn:Hh.
  2: { rewrite (Hearly Hh).
       cbn [NewServer foldl errorEncoder DefaultErrorEncoder fst].
       destruct (writeError_fields
                   (methodNotFoundError (Sprintf_MethodNotFound (req_Method req))) w)
         as [_ ->].
       eexists. split; [reflexivity|]. split; [right; simpl; eauto|].
       intros req' svc' [= <-] Hh'. rewrite Hh in Hh'. discriminate. }
  destruct (Hsvc _ _ Hh) as [svc ->].
  rewrite (ServeHTTP_dispatch (NewServer handlers []) w r req svc sg Hpost Hreq Hh).
  cbv zeta.
  pose proof (reply_shape svc (HeaderNewContext (r_Context r) (r_Header r))
                (req_Params req) sg) as Hshape. cbv zeta in Hshape.
  destruct (ServeJSONRPC svc _ (req_Params req) (initial sg))
    as [[[resp hdrs] [e|]] m1] eqn:Hrun; cbn [fst snd] in *.
  - cbn [NewServer foldl errorEncoder DefaultErrorEncoder fst].
    destruct (writeError_fields e w) as [_ ->].
    eexists. split; [reflexivity|]. split; [right; simpl; eauto|].
    intros req' svc' [= <-] Hh'. rewrite Hh in Hh'.
    injection Hh' as Hh'. unfold asHandler in Hh'. rewrite <- Hh', Hrun.
    simpl. eauto.
  - destruct Hshape as (raw & l & [= -> ->]).
    eexists. split; [reflexivity|]. split; [left; simpl; eauto|].
    intros req' svc' [= <-] Hh'. rewrite Hh in Hh'.
    injection Hh' as Hh'. unfold asHandler in Hh'. rewrite <- Hh', Hrun.
    simpl. eauto.
Qed.

(** C9. When every stage of the pipeline of the method succeeds, the
    envelope written has no id, whatever the id of the request is: it has
    the version, the result and the header map [ServeJSONRPC] returned,
    and no error. *)
Theorem success_envelope_has_no_id s w r req svc sg :
  r_Method r = MethodPost ->
  jsonDecode (r_Body r) = Some req ->
  sm s !! req_Method req = Some (asHandler svc) ->
  let rep := (ServeJSONRPC svc (HeaderNewContext (r_Context r) (r_Header r))
                (req_Params req) (initial sg)).1 in
  rep.2 = None ->
  let out := ServeHTTP s w r (initial sg) in
  exists res,
    w_body out.1 = (w_body w ++ [Envelope res])%list /\
    resp_ID res = None /\
    (forall id, req_ID req = Some id -> resp_ID res <> Some id) /\
    resp_JSONRPC res = Version /\
    resp_Result res = rep.1.1 /\
    RespHeaders res = rep.1.2 /\
    resp_Error res = None.
Proof.
  intros Hpost Hreq Hh. cbv zeta. intros Hok.
  rewrite (ServeHTTP_dispatch s w r req svc sg Hpost Hreq Hh). cbv zeta.
  destruct (ServeJSONRPC svc _ (req_Params req) (initial sg))
    as [[[resp hdrs] [e|]] m1]; cbn [fst snd] in *; [discriminate|].
  eexists. split; [reflexivity|]. simpl. repeat split; congruence.
Qed.


End ServerClaims.

(** * The theorems at sample requests *)

Lemma malformed_body_gets_InternalError_witness :
  r_Method (postRequest "{") = MethodPost /\
  jsonDecode (Platform:=samplePlatform) (r_Body (postRequest "{")) = None /\
  w_status newResponseWriter = None /\
  w_body (ServeHTTP (P:=samplePlatform) (NewServer (P:=samplePlatform) addHandlers [])
            newResponseWriter (postRequest "{") (initial sampleWorld)).1
    = [Envelope
        {| RespHeaders := None; resp_JSONRPC := Version; resp_Result := None;
           resp_Error := Some
             {| Code := -32603;
                Message := "The JSON sent is not a valid Request object.";
                Data := None |};
           resp_ID := None |}].
Proof.
  split; [reflexivity|]. split; [reflexivity|]. split; [reflexivity|].
  apply (malformed_body_gets_InternalError (P:=samplePlatform) addHandlers
           newResponseWriter (postRequest "{") (initial sampleWorld)
           eq_refl eq_refl eq_refl).
Defined.

Lemma unknown_method_gets_MethodNotFound_witness :
  r_Method (postRequest (callBody "missing")) = MethodPost /\
  jsonDecode (Platform:=samplePlatform) (r_Body (postRequest (callBody "missing")))
    = Some (callRequest "missing") /\
  addHandlers !! req_Method (callRequest "missing") = None /\
  w_status newResponseWriter = None /\
  w_status (ServeHTTP (P:=samplePlatform) (NewServer (P:=samplePlatform) addHandlers [])
              newResponseWriter (postRequest (callBody "missing"))
              (initial sampleWorld)).1 = Some 200.
Proof.
  assert (H1 : jsonDecode (Platform:=samplePlatform)
                 (r_Body (postRequest (callBody "missing")))
               = Some (callRequest "missing")) by (vm_compute; reflexivity).
  assert (H2 : addHandlers !! req_Method (callRequest "missing") = None)
    by (vm_compute; reflexivity).
  split; [reflexivity|]. split; [exact H1|]. split; [exact H2|].
  split; [reflexivity|].
  apply (unknown_method_gets_MethodNotFound (P:=samplePlatform) addHandlers
           newResponseWriter (postRequest (callBody "missing"))
           (callRequest "missing") (initial sampleWorld) eq_refl H1 H2 eq_refl).
Defined.

Lemma non_POST_gets_405_witness :
  r_Method getRequest <> MethodPost /\
  w_status newResponseWriter = None /\
  w_status (ServeHTTP (P:=samplePlatform) (NewServer (P:=samplePlatform) addHandlers [])
              newResponseWriter getRequest (initial sampleWorld)).1 = Some 405.
Proof.
  assert (H1 : r_Method getRequest <> MethodPost) by discriminate.
  split; [exact H1|]. split; [reflexivity|].
  apply (non_POST_gets_405 (P:=samplePlatform)
           (NewServer (P:=samplePlatform) addHandlers [])
           newResponseWriter getRequest (initial sampleWorld) H1 eq_refl).
Defined.

Lemma addHandlers_are_services :
  forall name h, addHandlers !! name = Some h -> exists svc, h = asHandler svc.
Proof.
  intros name h H. unfold addHandlers in H.
  apply lookup_singleton_Some in H as [_ <-]. eauto.
Qed.

Lemma envelope_has_result_or_error_witness :
  r_Method (postRequest (callBody "add")) = MethodPost /\
  exists res,
    w_body (ServeHTTP (P:=samplePlatform) (NewServer (P:=samplePlatform) addHandlers [])
              newResponseWriter (postRequest (callBody "add"))
              (initial sampleWorld)).1 = [Envelope res] /\
    exactlyOne res.
Proof.
  split; [reflexivity|].
  destruct (envelope_has_result_or_error (P:=samplePlatform) addHandlers
              newResponseWriter (postRequest (callBody "add")) sampleWorld
              eq_refl addHandlers_are_services) as (res & Hbody & Hone & _).
  exists res. split; [exact Hbody | exact Hone].
Defined.

Lemma success_envelope_has_no_id_witness :
  r_Method (postRequest (callBody "add")) = MethodPost /\
  jsonDecode (Platform:=samplePlatform) (r_Body (postRequest (callBody "add")))
    = Some (callRequest "add") /\
  req_ID (callRequest "add") = Some (IDNumber 1) /\
  exists res,
    w_body (ServeHTTP (P:=samplePlatform) (NewServer (P:=samplePlatform) addHandlers [])
              newResponseWriter (postRequest (callBody "add"))
              (initial sampleWorld)).1 = [Envelope res] /\
    resp_ID res = None.
Proof.
  assert (H1 : jsonDecode (Platform:=samplePlatform)
                 (r_Body (postRequest (callBody "add")))
               = Some (callRequest "add")) by (vm_compute; reflexivity).
  split; [reflexivity|]. split; [exact H1|]. split; [reflexivity|].
  destruct (success_envelope_has_no_id (P:=samplePlatform)
              (NewServer (P:=samplePlatform) addHandlers [])
              newResponseWriter (postRequest (callBody "add"))
              (callRequest "add") addService sampleWorld
              eq_refl H1 ltac:(vm_compute; reflexivity)
              ltac:(vm_compute; reflexivity))
    as (res & Hbody & Hid & _).
  exists res. split; [exact Hbody | exact Hid].
Defined.

Lemma ServeJSONRPC_short_circuit_witness :
  (allocHeader sampleWorld, EvDecode emptyCtx "[3, 2]" ("", Some oof))
    ∈ trace (ServeJSONRPC badDecodeService emptyCtx "[3, 2]" (initial sampleWorld)).2 /\
  select is_endpoint
    (trace (ServeJSONRPC badDecodeService emptyCtx "[3, 2]" (initial sampleWorld)).2) = [] /\
  (ServeJSONRPC badDecodeService emptyCtx "[3, 2]" (initial sampleWorld)).1.2 = Some oof /\
  env (world (ServeJSONRPC badDecodeService emptyCtx "[3, 2]" (initial sampleWorld)).2)
    = 1%nat.
Proof.
  assert (Hin : (allocHeader sampleWorld, EvDecode emptyCtx "[3, 2]" ("", Some oof))
    ∈ trace (ServeJSONRPC badDecodeService emptyCtx "[3, 2]" (initial sampleWorld)).2)
    by (vm_compute; apply list_elem_of_further, list_elem_of_here).
  destruct (ServeJSONRPC_short_circuit badDecodeService emptyCtx "[3, 2]" sampleWorld)
    as (Hdec & _).
  destruct (Hdec _ _ _ _ _ Hin) as (Hend & _ & _ & Herr & _).
  split; [exact Hin|]. split; [exact Hend|]. split; [exact Herr|].
  vm_compute. reflexivity.
Defined.

Lemma hooks_run_in_registration_order_witness :
  s_before addService = [setOne; setTwo] /\
  InOrder Before (s_before addService) emptyCtx
    (select (is_hook Before)
       (trace (ServeJSONRPC addService emptyCtx "[3, 2]" (initial sampleWorld)).2)) /\
  length (select (is_hook Before)
       (trace (ServeJSONRPC addService emptyCtx "[3, 2]" (initial sampleWorld)).2))
    = 2%nat.
Proof.
  destruct (hooks_run_in_registration_order addService emptyCtx "[3, 2]" sampleWorld)
    as (_ & Hbefore & _).
  split; [reflexivity|]. split; [exact Hbefore|].
  vm_compute. reflexivity.
Defined.

Lemma ServeJSONRPC_success_witness :
  (ServeJSONRPC addService emptyCtx "[3, 2]" (initial sampleWorld)).1.2 = None /\
  exists raw l (w3 : World nat) wE cE rs,
    (ServeJSONRPC addService emptyCtx "[3, 2]" (initial sampleWorld)).1
      = (Some raw, Some l, None) /\
    last (trace (ServeJSONRPC addService emptyCtx "[3, 2]" (initial sampleWorld)).2)
      = Some (wE, EvEncode cE rs (raw, None)) /\
    (l ∉ dom (headers w3)).
Proof.
  assert (Hok : (ServeJSONRPC addService emptyCtx "[3, 2]" (initial sampleWorld)).1.2
                = None) by (vm_compute; reflexivity).
  split; [exact Hok|].
  destruct (ServeJSONRPC_success addService emptyCtx "[3, 2]" sampleWorld)
    as (_ & Hsucc).
  destruct (Hsucc Hok) as (raw & l & w3 & wE & cE & rs & H1 & H2 & _ & _ & H3 & _).
  exists raw, l, w3, wE, cE, rs. split; [exact H1|]. split; [exact H2|exact H3].
Defined.


(** * The package's tests, on the model *)

Example TestServerBadDecode :
  let out := serve (NewServer (P:=samplePlatform)
    {[ "add" := asHandler (NewService endpointNop badDecoder nopEncoder
                             [ServiceErrorLogger mockLogger]) ]} []) in
  w_status out.1 = Some 200 /\ errorCodes out.1 = [InternalError] /\
  env (world out.2) = 1%nat.
Proof. vm_compute. repeat split. Qed.

Example TestServerBadEndpoint :
  let out := serve (NewServer (P:=samplePlatform)
    {[ "add" := asHandler (NewService badEndpoint nopDecoder nopEncoder []) ]} []) in
  w_status out.1 = Some 200 /\ errorCodes out.1 = [InternalError].
Proof. vm_compute. repeat split. Qed.

Example TestServerBadEncode :
  let out := serve (NewServer (P:=samplePlatform)
    {[ "add" := asHandler (NewService endpointNop nopDecoder badEncoder []) ]} []) in
  w_status out.1 = Some 200 /\ errorCodes out.1 = [InternalError].
Proof. vm_compute. repeat split. Qed.

Example TestServerErrorEncoder :
  let out := serve (NewServer (P:=samplePlatform)
    {[ "add" := asHandler (NewService (fun _ _ w => (("", Some teapot), w))
                             nopDecoder nopEncoder []) ]}
    [ServerErrorEncoder teapotEncoder]) in
  w_status out.1 = Some 418.
Proof. vm_compute. reflexivity. Qed.

Example TestServerUnregisteredMethod :
  let out := serve (NewServer (P:=samplePlatform) ∅ []) in
  w_status out.1 = Some 200 /\ errorCodes out.1 = [MethodNotFoundError].
Proof. vm_compute. repeat split. Qed.

Example TestServerHappyPath :
  let out := serve (NewServer (P:=samplePlatform)
    {[ "add" := asHandler (NewService endpointNop nopDecoder nopEncoder []) ]} []) in
  w_status out.1 = Some 200 /\ errorCodes out.1 = [].
Proof. vm_compute. repeat split. Qed.

Example TestMultipleServerBefore :
  let out := serve (NewServer (P:=samplePlatform)
    {[ "add" := asHandler (NewService endpointNop nopDecoder nopEncoder
                             [ServiceBefore [setOne]; ServiceBefore [checkOne]]) ]} []) in
  env (world out.2) = 10%nat.
Proof. vm_compute. reflexivity. Qed.

Example TestMultipleServerAfter :
  let out := serve (NewServer (P:=samplePlatform)
    {[ "add" := asHandler (NewService endpointNop nopDecoder nopEncoder
                             [ServiceAfter [setOne]; ServiceAfter [checkOne]]) ]} []) in
  env (world out.2) = 10%nat.
Proof. vm_compute. reflexivity. Qed.

(** * Further properties *)

(** X1. [ErrorMessage] has a message for the five codes of the taxonomy,
    and the empty string for every other code. *)
Theorem ErrorMessage_known_codes (code : Z) :
  ErrorMessage code <> "" <->
  code ∈ [ParseError; InvalidRequestError; MethodNotFoundError;
          InvalidParamsError; InternalError].
Proof.
  unfold ErrorMessage, errorMessage. cbn [assoc].
  rewrite !elem_of_cons, elem_of_nil.
  destruct (Z.eqb_spec ParseError code) as [<-|?];
    [split; [intros _; tauto | discriminate]|].
  destruct (Z.eqb_spec InvalidRequestError code) as [<-|?];
    [split; [intros _; tauto | discriminate]|].
  destruct (Z.eqb_spec MethodNotFoundError code) as [<-|?];
    [split; [intros _; tauto | discriminate]|].
  destruct (Z.eqb_spec InvalidParamsError code) as [<-|?];
    [split; [intros _; tauto | discriminate]|].
  destruct (Z.eqb_spec InternalError code) as [<-|?];
    [split; [intros _; tauto | discriminate]|].
  split; [intros H; by destruct H|].
  intros [?|[?|[?|[?|[?|[]]]]]]; congruence.
Qed.

Lemma List_last_cons {A} (l : list A) (a d : A) :
  List.last (a :: l) d = List.last l a.
Proof.
  revert a d. induction l as [|b l IH]; intros a d; [reflexivity|].
  change (List.last (a :: b :: l) d) with (List.last (b :: l) d).
  by rewrite !IH.
Qed.

(** X10. After any run of [WriteHeader] calls, an [interceptingWriter]
    holds the code of the last call, and the code it was made with when
    there was no call; the writer inside has been passed the codes of all
    the calls, in their order, whatever it does with them. *)
Theorem interceptingWriter_last_code {W : Type} (inner_WriteHeader : W -> Z -> W)
    (w : interceptingWriter W) (codes : list Z) :
  let w' := foldl (iw_WriteHeader inner_WriteHeader) w codes in
  iw_code w' = List.last codes (iw_code w) /\
  iw_ResponseWriter w' = foldl inner_WriteHeader (iw_ResponseWriter w) codes.
Proof.
  cbv zeta. revert w. induction codes as [|code codes IH]; intros w; [done|].
  cbn [foldl]. destruct (IH (iw_WriteHeader inner_WriteHeader w code)) as [-> ->].
  split; [|reflexivity]. by rewrite List_last_cons.
Qed.

Section EncoderHeaders.

Context {U Value : Type} {P : Platform}.

(** X2. The headers, status and body the default error encoder writes do
    not hang on the order in which the keys of the error's header map are
    ranged over. *)
Theorem header_copy_order_irrelevant (h : HeaderMap) (keys : list string)
    (w : ResponseWriter) :
  keys ≡ₚ elements (dom h) ->
  copyHeaders h keys w = copyHeaders h (elements (dom h)) w.
Proof. apply copyHeaders_any_order. Qed.

(** X3. What the default error encoder leaves in the response headers, for
    an error that exposes the header map [h]: under the canonical form of
    each key of [h], the one value [Get] returns for the key, so the empty
    string when [h] has nothing under the canonical form; [Content-Type] is
    the JSON content type unless a key of [h] has that canonical form;
    every other header is as it was. *)
Theorem DefaultErrorEncoder_headers (c : Ctx Value) err h w (world : World U) :
  err_Headers err = Some h ->
  let w' := (DefaultErrorEncoder c err w world).1 in
  (forall k, k ∈ dom h ->
     w_header w' !! CanonicalMIMEHeaderKey k = Some [Header_Get h k]) /\
  (forall k, k ∈ dom h -> h !! CanonicalMIMEHeaderKey k = None ->
     w_header w' !! CanonicalMIMEHeaderKey k = Some [""]) /\
  ((forall k, k ∈ dom h -> CanonicalMIMEHeaderKey k <> "Content-Type") ->
   w_header w' !! "Content-Type" = Some [ContentType]) /\
  (forall key, (forall k, k ∈ dom h -> CanonicalMIMEHeaderKey k <> key) ->
     key <> "Content-Type" -> w_header w' !! key = w_header w !! key).
Proof.
  intros Hh. cbn [DefaultErrorEncoder fst].
  assert (Hcopy : forall k, k ∈ dom h ->
            w_header (writeError err w) !! CanonicalMIMEHeaderKey k
              = Some [Header_Get h k]).
  { intros k Hk. unfold writeError. rewrite Hh. simpl.
    apply copyHeaders_sets. by apply elem_of_elements. }
  assert (Hother : forall key,
            (forall k, k ∈ dom h -> CanonicalMIMEHeaderKey k <> key) ->
            w_header (writeError err w) !! key
              = Header_Set (w_header w) "Content-Type" ContentType !! key).
  { intros key Hkey. unfold writeError. rewrite Hh. simpl.
    rewrite copyHeaders_others; [reflexivity|].
    intros k Hk. apply Hkey. by apply elem_of_elements in Hk. }
  split; [exact Hcopy|]. split; [|split].
  - intros k Hk Hnone. rewrite (Hcopy k Hk). unfold Header_Get. by rewrite Hnone.
  - intros Hkey. rewrite (Hother _ Hkey). unfold Header_Set.
    rewrite canonical_Content_Type. apply lookup_insert_eq.
  - intros key Hkey Hct. rewrite (Hother _ Hkey). unfold Header_Set.
    rewrite canonical_Content_Type. by apply lookup_insert_ne.
Qed.

End EncoderHeaders.

Lemma header_copy_order_irrelevant_witness :
  ["X-Id"; "x-id"] ≡ₚ elements (dom mixedHeaders) /\
  w_header (copyHeaders mixedHeaders ["X-Id"; "x-id"] newResponseWriter) !! "X-Id"
    = Some ["canonical"] /\
  w_header (copyHeaders mixedHeaders (elements (dom mixedHeaders)) newResponseWriter)
    !! "X-Id" = Some ["canonical"].
Proof.
  assert (Hperm : ["X-Id"; "x-id"] ≡ₚ elements (dom mixedHeaders)).
  { vm_compute. first [reflexivity | apply perm_swap]. }
  assert (H1 : w_header (copyHeaders mixedHeaders ["X-Id"; "x-id"] newResponseWriter)
                 !! "X-Id" = Some ["canonical"]) by (vm_compute; reflexivity).
  split; [exact Hperm|]. split; [exact H1|].
  rewrite <- (header_copy_order_irrelevant mixedHeaders ["X-Id"; "x-id"]
                newResponseWriter Hperm).
  exact H1.
Defined.

Lemma DefaultErrorEncoder_headers_witness :
  err_Headers lowerError = Some lowerHeaders /\
  "x-id" ∈ dom lowerHeaders /\
  lowerHeaders !! CanonicalMIMEHeaderKey "x-id" = None /\
  w_header (DefaultErrorEncoder (P:=samplePlatform) emptyCtx lowerError
              newResponseWriter sampleWorld).1 !! "X-Id" = Some [""].
Proof.
  assert (H1 : "x-id" ∈ dom lowerHeaders)
    by (unfold lowerHeaders; rewrite dom_singleton_L; set_solver).
  assert (H2 : lowerHeaders !! CanonicalMIMEHeaderKey "x-id" = None)
    by (vm_compute; reflexivity).
  split; [reflexivity|]. split; [exact H1|]. split; [exact H2|].
  destruct (DefaultErrorEncoder_headers (P:=samplePlatform) emptyCtx lowerError
              lowerHeaders newResponseWriter sampleWorld eq_refl) as (_ & H & _).
  exact (H "x-id" H1 H2).
Defined.

(** The four ways of [Run], every part named. *)
Ltac run_ways Hrun :=
  destruct Hrun as
    [ pre h0 wp befs cB wB v0 e0 wD lr wL Hpre Hbef Hdec Hlog
    | pre h0 wp befs cB wB rq0 wD v0 e0 wE lr wL Hpre Hbef Hdec He Hlog
    | pre h0 wp befs cB wB rq0 wD rs0 wE afts cA wA v0 e0 wF lr wL
        Hpre Hbef Hdec He Haft Henc Hlog
    | pre h0 wp befs cB wB rq0 wD rs0 wE afts cA wA raw wF
        Hpre Hbef Hdec He Haft Henc ].

(** The only call of kind [p] in the trace of a way of [Run]: the goal
    starts with the call being in the trace, and is left to start with
    what the call is equal to. *)
Ltac sole p Hpre Hbef :=
  let H := fresh "Hin" in
  intros H; pick H p; revert H; do 2 select_run Hpre Hbef; intros H;
  first [by apply elem_of_nil in H | apply list_elem_of_singleton in H; revert H].

Ltac sole2 p Hpre Hbef Haft :=
  let H := fresh "Hin" in
  intros H; pick H p; revert H; do 2 select_run2 Hpre Hbef Haft; intros H;
  first [by apply elem_of_nil in H | apply list_elem_of_singleton in H; revert H].

Section PipelineFlow.

Context {U Value : Type}.

Implicit Types (s : Service U Value) (c : Ctx Value) (w : World U).

(** Each hook of a loop is called in the world the hook before it left, on
    the same header map. *)
Lemma HookRun_worlds k h i (fs : list (RequestFunc U Value)) c w evs c' w' :
  HookRun k h i fs c w evs c' w' ->
  (forall w1 j c1 h1 c1', evs !! 0%nat = Some (w1, EvHook k j c1 h1 c1') -> w1 = w) /\
  (forall n w1 j c1 h1 c1' w2 j2 c2 h2 c2',
     evs !! n = Some (w1, EvHook k j c1 h1 c1') ->
     evs !! S n = Some (w2, EvHook k j2 c2 h2 c2') ->
     h2 = h1 /\ exists f, fs !! n = Some f /\ w2 = (f c1 h1 w1).2).
Proof.
  induction 1 as [|i f fs c w c1 w1 evs c2 w2 Hf Hrun (IHa & IHb)].
  - split; intros; simplify_eq/=.
  - split.
    + intros wa ja ca ha ca' H1. simpl in H1. by injection H1 as <- _ _ _ _.
    + intros [|n] wa ja ca ha ca' wb jb cb hb cb' H1 H2; simpl in H1, H2.
      * injection H1 as <- <- <- <- <-.
        destruct (HookRun_AllOn _ _ _ _ _ _ _ _ _ Hrun (wb, EvHook k jb cb hb cb'))
          as (k' & i' & c0 & c0' & Hev);
          [eapply list_elem_of_lookup_2; eauto|].
        simpl in Hev. injection Hev as _ _ _ -> _.
        split; [reflexivity|]. exists f. split; [reflexivity|].
        rewrite Hf. simpl. eapply IHa; eauto.
      * destruct (IHb n _ _ _ _ _ _ _ _ _ _ H1 H2) as (-> & g & Hg & ->). eauto.
Qed.

(** X6. [ServeJSONRPC] calls the decode step once, on the params it was
    given. The endpoint, when it is called, is called once, only after a
    decode without error, on the request decode returned, with the context
    decode got and in the world decode left. The encode step, when it is
    called, is called once, only after an endpoint call without error, on
    the response the endpoint returned and with the context the last
    after-hook returned (the endpoint's context when there is no
    after-hook). *)
Theorem ServeJSONRPC_data_flow s c params w :
  let tr := trace (ServeJSONRPC s c params (initial w)).2 in
  exists w1 c1,
    select is_decode tr = [(w1, EvDecode c1 params (s_dec s c1 params w1).1)] /\
    forall w2 c2 rq r2, (w2, EvEndpoint c2 rq r2) ∈ tr ->
      select is_endpoint tr = [(w2, EvEndpoint c2 rq r2)] /\
      (s_dec s c1 params w1).1 = (rq, None) /\
      c2 = c1 /\
      w2 = (s_dec s c1 params w1).2 /\
      r2 = (s_e s c2 rq w2).1 /\
      forall w3 c3 rs r3, (w3, EvEncode c3 rs r3) ∈ tr ->
        select is_encode tr = [(w3, EvEncode c3 rs r3)] /\
        r2 = (rs, None) /\
        r3 = (s_enc s c3 rs w3).1 /\
        match last (select (is_hook After) tr) with
        | Some x => exists w0 j c0 h, x = (w0, EvHook After j c0 h c3)
        | None => c3 = c2
        end.
Proof.
  destruct (ServeJSONRPC_initial s c params w) as (rep & w' & evs & -> & Hrun).
  cbn [fst snd trace].
  run_ways Hrun; exists wB, cB.
  - split; [select_run Hpre Hbef; by rewrite Hdec|].
    intros w2 c2 rq r2. sole (@is_endpoint Value) Hpre Hbef.
  - split; [select_run Hpre Hbef; by rewrite Hdec|].
    intros w2 c2 rq r2. sole (@is_endpoint Value) Hpre Hbef.
    intros [= -> -> -> ->]. rewrite Hdec, He.
    do 5 (split; [reflexivity|]).
    intros w3 c3 rs r3. sole (@is_encode Value) Hpre Hbef.
  - split; [select_run2 Hpre Hbef Haft; by rewrite Hdec|].
    intros w2 c2 rq r2. sole2 (@is_endpoint Value) Hpre Hbef Haft.
    intros [= -> -> -> ->]. rewrite Hdec, He.
    do 5 (split; [reflexivity|]).
    intros w3 c3 rs r3. sole2 (@is_encode Value) Hpre Hbef Haft.
    intros [= -> -> -> ->]. rewrite Henc. rewrite ?app_nil_r.
    do 3 (split; [reflexivity|]).
    pose proof (HookRun_last _ _ _ _ _ _ _ _ _ Haft) as Hl.
    destruct (last afts); [destruct Hl as (? & ? & ? & ->); eauto|done].
  - split; [select_run2 Hpre Hbef Haft; by rewrite Hdec|].
    intros w2 c2 rq r2. sole2 (@is_endpoint Value) Hpre Hbef Haft.
    intros [= -> -> -> ->]. rewrite Hdec, He.
    do 5 (split; [reflexivity|]).
    intros w3 c3 rs r3. sole2 (@is_encode Value) Hpre Hbef Haft.
    intros [= -> -> -> ->]. rewrite Henc. rewrite ?app_nil_r.
    do 3 (split; [reflexivity|]).
    pose proof (HookRun_last _ _ _ _ _ _ _ _ _ Haft) as Hl.
    destruct (last afts); [destruct Hl as (? & ? & ? & ->); eauto|done].
Qed.

End PipelineFlow.

Section MoreProperties.

Context {U Value : Type} {P : Platform}.

Implicit Types (svc : Service U Value) (c : Ctx Value) (sg : World U).

(** X11. In both loops of [ServeJSONRPC], each hook is called on the same
    header map as the hook before it and in the world that hook left: what
    a hook writes to the header map, or to any other state, is there for
    the next hook. *)
Theorem hooks_see_earlier_effects svc c params sg (k : HookKind) :
  let calls := select (is_hook k) (trace (ServeJSONRPC svc c params (initial sg)).2) in
  forall n w1 j c1 h1 c1' w2 j2 c2 h2 c2',
    calls !! n = Some (w1, EvHook k j c1 h1 c1') ->
    calls !! S n = Some (w2, EvHook k j2 c2 h2 c2') ->
    h2 = h1 /\
    exists f, match k with Before => s_before svc | After => s_after svc end !! n
              = Some f /\
              w2 = (f c1 h1 w1).2.
Proof.
  destruct (ServeJSONRPC_initial svc c params sg) as (rep & w' & evs & -> & Hrun).
  cbn [fst snd trace].
  intros n w1 j c1 h1 c1' w2 j2 c2 h2 c2'.
  destruct k; run_ways Hrun;
    first [select_run2 Hpre Hbef Haft | select_run Hpre Hbef];
    rewrite ?app_nil_r; intros H1 H2;
    first [ by rewrite lookup_nil in H1
          | destruct (HookRun_worlds _ _ _ _ _ _ _ _ _ Hbef) as (_ & Hw);
            solve [eapply Hw; eauto]
          | destruct (HookRun_worlds _ _ _ _ _ _ _ _ _ Haft) as (_ & Hw);
            solve [eapply Hw; eauto] ].
Qed.

Lemma default_last_cons {A} (d a : A) (l : list A) :
  default d (last (a :: l)) = default a (last l).
Proof.
  revert d a. induction l as [|b l IH]; intros d a; [reflexivity|].
  change (last (a :: b :: l)) with (last (b :: l)).
  by rewrite (IH d b), (IH a b).
Qed.

Lemma service_options_fold (s0 : Service U Value) (opts : list (@OptionDesc U Value)) :
  let s := foldl (fun s option => option s) s0 (toOption <$> opts) in
  s_e s = s_e s0 /\ s_dec s = s_dec s0 /\ s_enc s = s_enc s0 /\
  s_logger s = default (s_logger s0) (last (omap registeredLogger opts)).
Proof.
  revert s0. induction opts as [|o opts IH]; intros s0; csimpl; [done|].
  destruct (IH (toOption o s0)) as (-> & -> & -> & ->).
  destruct o; simpl; repeat split. by rewrite default_last_cons.
Qed.

(** X7. The options of [NewService] leave the endpoint, the decoder and the
    encoder as they were passed; the logger is the one of the last
    [ServiceErrorLogger] option, and the no-op logger when there is
    none. *)
Theorem NewService_keeps_codec (e : Endpoint U Value) dec enc
    (opts : list (@OptionDesc U Value)) :
  let s := NewService e dec enc (toOption <$> opts) in
  s_e s = e /\ s_dec s = dec /\ s_enc s = enc /\
  s_logger s = default NopLogger (last (omap registeredLogger opts)).
Proof. apply service_options_fold. Qed.

Lemma server_options_fold (s0 : Server U Value) (ees : list (ErrorEncoder U Value)) :
  let s := foldl (fun s option => option s) s0 (ServerErrorEncoder <$> ees) in
  sm s = sm s0 /\ errorEncoder s = default (errorEncoder s0) (last ees).
Proof.
  revert s0. induction ees as [|ee ees IH]; intros s0; csimpl; [done|].
  destruct (IH (ServerErrorEncoder ee s0)) as (-> & ->).
  simpl. split; [reflexivity|]. by rewrite default_last_cons.
Qed.

(** X8. [NewServer] keeps the service map it was given, whatever
    [ServerErrorEncoder] options follow; the error encoder is the one of
    the last such option, and [DefaultErrorEncoder] when there is none. *)
Theorem NewServer_last_encoder_wins (handlers : gmap string (Handler U Value))
    (ees : list (ErrorEncoder U Value)) :
  let s := NewServer handlers (ServerErrorEncoder <$> ees) in
  sm s = handlers /\
  errorEncoder s = default DefaultErrorEncoder (last ees).
Proof. apply server_options_fold. Qed.

(** X9. The after-hooks and the encode step run exactly when the endpoint
    returned without error. Then every after-hook is called, the calls
    follow one another, and the call of the encode step comes right after
    them, whether it fails or not. Otherwise no after-hook and no encode
    step is called, and [ServeJSONRPC] returns an error. *)
Theorem after_hooks_run_iff_endpoint_succeeds svc c params sg :
  let out := ServeJSONRPC svc c params (initial sg) in
  let tr := trace out.2 in
  (forall (w2 : World U) c2 rq rs, (w2, EvEndpoint c2 rq (rs, None)) ∈ tr ->
     length (select (is_hook After) tr) = length (s_after svc) /\
     exists tr1 x tr2,
       tr = (tr1 ++ select (is_hook After) tr ++ x :: tr2)%list /\
       select is_encode tr = [x]) /\
  ((forall (w2 : World U) c2 rq rs, (w2, EvEndpoint c2 rq (rs, None)) ∉ tr) ->
   select (is_hook After) tr = [] /\ select is_encode tr = [] /\
   out.1.2 <> None).
Proof.
  destruct (ServeJSONRPC_initial svc c params sg) as (rep & w' & evs & -> & Hrun).
  cbn [fst snd trace]. split.
  - intros w2 c2 rq rs.
    run_ways Hrun;
      [ sole (@is_endpoint Value) Hpre Hbef
      | sole (@is_endpoint Value) Hpre Hbef; intros [=]
      | sole2 (@is_endpoint Value) Hpre Hbef Haft; intros _
      | sole2 (@is_endpoint Value) Hpre Hbef Haft; intros _ ];
      rewrite ?app_nil_r;
      (split; [by eapply HookRun_length|]);
      eexists (pre ++ befs ++ [_; _; _])%list, _, _;
      (split; [|reflexivity]); rewrite <- !app_assoc; reflexivity.
  - intros Hno.
    run_ways Hrun; first [select_run2 Hpre Hbef Haft | select_run Hpre Hbef];
      first [ done
            | exfalso; eapply Hno;
              rewrite !elem_of_app, !elem_of_cons;
              right; right; left; right; left; reflexivity ].
Qed.

Implicit Types (s : Server U Value) (w : ResponseWriter) (r : HTTPRequest Value).

(** No way through [ServeJSONRPC] calls the error encoder. *)
Lemma pipeline_calls_no_error_encoder svc c params sg :
  select is_error_encoder (trace (ServeJSONRPC svc c params (initial sg)).2) = [].
Proof.
  destruct (ServeJSONRPC_initial svc c params sg) as (rep & w' & evs & -> & Hrun).
  cbn [fst snd trace].
  run_ways Hrun; first [select_run2 Hpre Hbef Haft | select_run Hpre Hbef];
    reflexivity.
Qed.

(** What a POST does, in full. *)
Lemma ServeHTTP_post_cases s w r sg :
  r_Method r = MethodPost ->
  let c := HeaderNewContext (r_Context r) (r_Header r) in
  match jsonDecode (r_Body r) with
  | None =>
      let out := errorEncoder s c (invalidRequestError BoxedValue) w sg in
      ServeHTTP s w r (initial sg)
        = (out.1,
           {| world := out.2;
              trace := [(sg, EvDecodeEnvelope (r_Body r) None);
                        (sg, EvErrorEncoder c (invalidRequestError BoxedValue))] |})
  | Some req =>
      match sm s !! req_Method req with
      | None =>
          let err := methodNotFoundError (Sprintf_MethodNotFound (req_Method req)) in
          let out := errorEncoder s c err w sg in
          ServeHTTP s w r (initial sg)
            = (out.1,
               {| world := out.2;
                  trace := [(sg, EvDecodeEnvelope (r_Body r) (Some req));
                            (sg, EvLookup (req_Method req) false);
                            (sg, EvErrorEncoder c err)] |})
      | Some h =>
          forall svc, h = asHandler svc ->
          let run := ServeJSONRPC svc c (req_Params req) (initial sg) in
          let pre := [(sg, EvDecodeEnvelope (r_Body r) (Some req));
                      (sg, EvLookup (req_Method req) true)] in
          ServeHTTP s w r (initial sg)
            = match run.1 with
              | (resp, respHeaders, Some e) =>
                  let out := errorEncoder s c e w (world run.2) in
                  (out.1,
                   {| world := out.2;
                      trace := (pre ++ trace run.2
                                    ++ [(world run.2, EvErrorEncoder c e)])%list |})
              | (resp, respHeaders, None) =>
                  (EncodeJSONResponse c w
                     {| RespHeaders := respHeaders; resp_JSONRPC := Version;
                        resp_Result := resp; resp_Error := None; resp_ID := None |},
                   {| world := world run.2; trace := (pre ++ trace run.2)%list |})
              end
      end
  end.
Proof.
  intros Hpost. unfold ServeHTTP. cbv zeta.
  rewrite Hpost, String.eqb_refl. cbn [negb]. cbv iota.
  destruct (jsonDecode (r_Body r)) as [req|].
  2: { unfold bind, note, call, initial. cbn [world trace].
       by destruct (errorEncoder s _ _ w sg). }
  destruct (sm s !! req_Method req) as [h|].
  2: { unfold bind, note, call, initial. cbn [world trace].
       by destruct (errorEncoder s _ _ w sg). }
  intros svc ->. unfold bind, note, initial. cbn [world trace]. unfold asHandler.
  rewrite Framed_ServeJSONRPC. cbn [world trace].
  fold (initial (Value:=Value) sg).
  destruct (ServeJSONRPC svc _ (req_Params req) (initial sg))
    as [[[resp respHeaders] [e|]] m1]; cbn [fst snd]; [|reflexivity].
  unfold call. cbn [world trace].
  destruct (errorEncoder s _ e w (world m1)). by rewrite <- app_assoc.
Qed.

(** X4. Whatever error encoder the server has, a POST to a map of
    [Service] handlers goes one of two ways. Either the error encoder is
    not called and the response is the success envelope, with no error; or
    the error encoder is called exactly once, as the last step, with the
    context [ServeHTTP] built from the request (never a context a hook
    returned), and the response and the world are what it leaves. *)
Theorem error_encoder_called_at_most_once s w r sg :
  r_Method r = MethodPost ->
  (forall name h, sm s !! name = Some h -> exists svc, h = asHandler svc) ->
  let out := ServeHTTP s w r (initial sg) in
  let c := HeaderNewContext (r_Context r) (r_Header r) in
  let calls := select is_error_encoder (trace out.2) in
  (calls = [] /\
   exists res, out.1 = EncodeJSONResponse c w res /\ resp_Error res = None) \/
  (exists (w1 : World U) e,
     calls = [(w1, EvErrorEncoder c e)] /\
     last (trace out.2) = Some (w1, EvErrorEncoder c e) /\
     out.1 = (errorEncoder s c e w w1).1 /\
     world out.2 = (errorEncoder s c e w w1).2).
Proof.
  intros Hpost Hsvc. cbv zeta.
  pose proof (ServeHTTP_post_cases s w r sg Hpost) as H. cbv zeta in H.
  destruct (jsonDecode (r_Body r)) as [req|].
  2: { rewrite H. right. eexists _, _. repeat split. }
  destruct (sm s !! req_Method req) as [h|] eqn:Hh.
  2: { rewrite H. right. eexists _, _. repeat split. }
  destruct (Hsvc _ _ Hh) as [svc ->]. rewrite (H svc eq_refl).
  pose proof (pipeline_calls_no_error_encoder svc
                (HeaderNewContext (r_Context r) (r_Header r)) (req_Params req) sg)
    as Hnone.
  destruct (ServeJSONRPC svc _ (req_Params req) (initial sg))
    as [[[resp respHeaders] [e|]] m1]; cbn [fst snd] in *.
  - right. exists (world m1), e. cbn [trace world].
    split; [|split; [|split; reflexivity]].
    + change (?a :: ?b :: (?t ++ ?l))%list with ([a; b] ++ t ++ l)%list.
      rewrite !select_app, Hnone. reflexivity.
    + rewrite !app_assoc. apply last_snoc.
  - left. cbn [trace]. split.
    + change (?a :: ?b :: ?t)%list with ([a; b] ++ t)%list.
      rewrite select_app, Hnone. reflexivity.
    + eexists. split; reflexivity.
Qed.

(** X5. [ServeHTTP] reads the method and the params of the request
    envelope and nothing else of it: two POSTs with the same header map
    and context, whose bodies decode to envelopes with the same method and
    params, get the same response and leave the same world, whatever the
    version and the id of the envelopes are. *)
Theorem ServeHTTP_reads_method_and_params s w r r' req req' sg :
  r_Method r = MethodPost ->
  r_Method r' = MethodPost ->
  r_Header r' = r_Header r ->
  r_Context r' = r_Context r ->
  jsonDecode (r_Body r) = Some req ->
  jsonDecode (r_Body r') = Some req' ->
  req_Method req' = req_Method req ->
  req_Params req' = req_Params req ->
  (forall name h, sm s !! name = Some h -> exists svc, h = asHandler svc) ->
  (ServeHTTP s w r' (initial sg)).1 = (ServeHTTP s w r (initial sg)).1 /\
  world (ServeHTTP s w r' (initial sg)).2 = world (ServeHTTP s w r (initial sg)).2.
Proof.
  intros Hpost Hpost' Hhdr Hctx Hreq Hreq' Hm Hp Hsvc.
  pose proof (ServeHTTP_post_cases s w r sg Hpost) as H.
  pose proof (ServeHTTP_post_cases s w r' sg Hpost') as H'.
  cbv zeta in H, H'. rewrite Hreq in H. rewrite Hreq', Hhdr, Hctx, Hm, Hp in H'.
  destruct (sm s !! req_Method req) as [h|] eqn:Hh.
  2: { rewrite H, H'. split; reflexivity. }
  destruct (Hsvc _ _ Hh) as [svc ->].
  rewrite (H svc eq_refl), (H' svc eq_refl).
  destruct (ServeJSONRPC svc _ (req_Params req) (initial sg))
    as [[[resp respHeaders] [e|]] m1]; split; reflexivity.
Qed.

End MoreProperties.

Lemma singleton_map_of_services {U Value : Type} (name : string)
    (svc : Service U Value) :
  forall n h, ({[ name := asHandler svc ]} : gmap string (Handler U Value)) !! n = Some h ->
              exists svc', h = asHandler svc'.
Proof. intros n h H. apply lookup_singleton_Some in H as [_ <-]. eauto. Qed.

Lemma hooks_see_earlier_effects_witness :
  select (is_hook After)
    (trace (ServeJSONRPC stampService emptyCtx "[3, 2]" (initial sampleWorld)).2)
    !! 0%nat
    = Some (allocHeader (allocHeader sampleWorld),
            EvHook After 0 emptyCtx (freshLoc (allocHeader sampleWorld)) emptyCtx) /\
  select (is_hook After)
    (trace (ServeJSONRPC stampService emptyCtx "[3, 2]" (initial sampleWorld)).2)
    !! 1%nat
    = Some ((stamp emptyCtx (freshLoc (allocHeader sampleWorld))
               (allocHeader (allocHeader sampleWorld))).2,
            EvHook After 1 emptyCtx (freshLoc (allocHeader sampleWorld)) emptyCtx) /\
  (exists f, s_after stampService !! 0%nat = Some f /\
     (stamp emptyCtx (freshLoc (allocHeader sampleWorld))
        (allocHeader (allocHeader sampleWorld))).2
     = (f emptyCtx (freshLoc (allocHeader sampleWorld))
          (allocHeader (allocHeader sampleWorld))).2) /\
  env (world (ServeJSONRPC stampService emptyCtx "[3, 2]" (initial sampleWorld)).2)
    = 10%nat.
Proof.
  assert (H1 : select (is_hook After)
    (trace (ServeJSONRPC stampService emptyCtx "[3, 2]" (initial sampleWorld)).2)
    !! 0%nat
    = Some (allocHeader (allocHeader sampleWorld),
            EvHook After 0 emptyCtx (freshLoc (allocHeader sampleWorld)) emptyCtx))
    by (vm_compute; reflexivity).
  assert (H2 : select (is_hook After)
    (trace (ServeJSONRPC stampService emptyCtx "[3, 2]" (initial sampleWorld)).2)
    !! 1%nat
    = Some ((stamp emptyCtx (freshLoc (allocHeader sampleWorld))
               (allocHeader (allocHeader sampleWorld))).2,
            EvHook After 1 emptyCtx (freshLoc (allocHeader sampleWorld)) emptyCtx))
    by (vm_compute; reflexivity).
  split; [exact H1|]. split; [exact H2|].
  split; [|vm_compute; reflexivity].
  exact (proj2 (hooks_see_earlier_effects stampService emptyCtx "[3, 2]" sampleWorld
                  After 0%nat _ _ _ _ _ _ _ _ _ _ H1 H2)).
Defined.

Lemma error_encoder_called_at_most_once_witness :
  r_Method (postRequest (callBody "add")) = MethodPost /\
  (length (select is_error_encoder
             (trace (ServeHTTP (P:=samplePlatform) teapotServer newResponseWriter
                       (postRequest (callBody "add")) (initial sampleWorld)).2))
   <= 1)%nat /\
  w_status (ServeHTTP (P:=samplePlatform) teapotServer newResponseWriter
              (postRequest (callBody "add")) (initial sampleWorld)).1 = Some 418.
Proof.
  split; [reflexivity|]. split; [|vm_compute; reflexivity].
  destruct (error_encoder_called_at_most_once (P:=samplePlatform) teapotServer
              newResponseWriter (postRequest (callBody "add")) sampleWorld eq_refl
              (singleton_map_of_services "add" _))
    as [(-> & _)|(w1 & e & -> & _)]; simpl; lia.
Defined.

Lemma ServeHTTP_reads_method_and_params_witness :
  jsonDecode (Platform:=lenientPlatform) (r_Body (postRequest (callBody "add")))
    = Some (callRequest "add") /\
  jsonDecode (Platform:=lenientPlatform) (r_Body (postRequest oldBody))
    = Some oldRequest /\
  req_JSONRPC oldRequest <> req_JSONRPC (callRequest "add") /\
  req_ID oldRequest <> req_ID (callRequest "add") /\
  (ServeHTTP (P:=lenientPlatform) (NewServer (P:=lenientPlatform) addHandlers [])
     newResponseWriter (postRequest oldBody) (initial sampleWorld)).1
  = (ServeHTTP (P:=lenientPlatform) (NewServer (P:=lenientPlatform) addHandlers [])
       newResponseWriter (postRequest (callBody "add")) (initial sampleWorld)).1.
Proof.
  assert (H1 : jsonDecode (Platform:=lenientPlatform)
                 (r_Body (postRequest (callBody "add"))) = Some (callRequest "add"))
    by (vm_compute; reflexivity).
  assert (H2 : jsonDecode (Platform:=lenientPlatform) (r_Body (postRequest oldBody))
               = Some oldRequest) by (vm_compute; reflexivity).
  split; [exact H1|]. split; [exact H2|].
  split; [discriminate|]. split; [discriminate|].
  apply (ServeHTTP_reads_method_and_params (P:=lenientPlatform)
           (NewServer (P:=lenientPlatform) addHandlers []) newResponseWriter
           (postRequest (callBody "add")) (postRequest oldBody)
           (callRequest "add") oldRequest sampleWorld
           eq_refl eq_refl eq_refl eq_refl H1 H2 eq_refl eq_refl
           addHandlers_are_services).
Defined.
